(** * MongoDriver: a shallow embedding of [src/drivers/MongoDriver.ts]

    The driver is a thin layer over the mongoose client.  The embedding has
    two levels:

    - [Store]: the part of mongoose and of the MongoDB server the driver
      talks to (connections, model handles, collections of documents, the
      expiring index and the server's expiry sweep), as explicit state;
    - [Driver]: the class [MongoDriver] itself, method by method, in a
      state-and-exception monad over the pair (store, [this]).

    One logical operation runs at a time: every [await] is a sequencing
    point, and a rejected promise is an exception that leaves the state
    mutated so far in place. *)

From stdpp Require Import gmap strings list fin_maps.
From Stdlib Require Import ZArith.

Local Open Scope Z_scope.
Local Open Scope string_scope.

(** ** Values and documents *)

(** The payload of a row ([data: SchemaTypes.Mixed], [value: any]): a
    serializable value, opaque to the driver.  JavaScript's [null] is
    [VNull]. *)
#[local] Unset Elimination Schemes.
Inductive Value : Type :=
| VNull
| VBool (b : bool)
| VNum (n : Z)
| VStr (s : string)
| VArr (items : list Value)
| VObj (fields : list (string * Value)).
#[local] Set Elimination Schemes.

(** [CollectionInterface]: one stored document.  Dates are milliseconds;
    [expireAt] is [None] when the field holds the schema default [null]. *)
Record CollectionInterface : Type := mkDoc {
  ID : string;
  data : Value;
  createdAt : Z;
  updatedAt : Z;
  expireAt : option Z;
}.

(** What [getAllRows] and [getStartsWith] hand back: [{ id, value }]. *)
Record Row : Type := mkRow { id : string; value : Value }.

(** ** Errors and results *)

Inductive Error : Type :=
| NotConnectedError   (* Error("MongoDriver is not connected to the database") *)
| ConnectionError     (* createConnection(...).asPromise() rejected *)
| BackendQueryError   (* a store command rejected *)
| MongoInvalidArgumentError  (* the client refuses a collection name *)
| TypeError.          (* a non-null assertion on undefined *)

Inductive Result (A : Type) : Type :=
| Ok (a : A)
| Err (e : Error).
Arguments Ok {A} a.
Arguments Err {A} e.

(** ** The store

    What the driver sees of mongoose and of the server.  A command sent on
    an open connection is answered; a command sent on a closed connection
    is rejected.  Documents come back as they were stored.  The client
    checks the name of a collection when a model is compiled on an open
    connection, and throws for a name it does not accept (the empty name,
    a name with a dollar sign, ...); which names it accepts is the
    client's business, a field of the store. *)

Module Store.

(** A mongoose [Connection], by identity. *)
Definition Connection : Type := nat.

(** A mongoose [Model]: its name, the collection it reads and writes, and
    the connection it is bound to ([model.db]). *)
Record Model : Type := mkModel {
  modelName : string;
  collectionName : string;
  db : Connection;
}.

(** A query filter as the driver builds them: none, or [{ ID: s }]. *)
Definition Filter : Type := option string.

(** Commands sent to the store, most recent first. *)
Inductive StoreCall : Type :=
| CallCreateConnection (url : string)
| CallClose (c : Connection)
| CallCreateIndex (c : Connection) (coll : string)
| CallFind (c : Connection) (coll : string) (f : Filter)
| CallFindOne (c : Connection) (coll : string) (f : Filter)
| CallFindOneAndUpdate (c : Connection) (coll : string) (f : Filter)
| CallDeleteMany (c : Connection) (coll : string) (f : Filter).

Record World : Type := mkWorld {
  pluralizer : option (string → string); (* mongoose's global pluralize function *)
  accepts : string → bool;               (* the client's check of a collection name *)
  clock : Z;                             (* current time, ms *)
  reachable : bool;                      (* does the server accept connections *)
  next_conn : Connection;                (* next fresh connection identity *)
  open_conns : gset Connection;          (* connections currently open *)
  collections : gmap string (list CollectionInterface);
  ttl_index : gmap string Z;             (* expireAfterSeconds of the index on expireAt *)
  calls : list StoreCall;
}.

Definition set_pluralizer (p : option (string → string)) (w : World) : World :=
  mkWorld p (accepts w) (clock w) (reachable w) (next_conn w) (open_conns w)
          (collections w) (ttl_index w) (calls w).

Definition set_next_conn (n : Connection) (w : World) : World :=
  mkWorld (pluralizer w) (accepts w) (clock w) (reachable w) n (open_conns w)
          (collections w) (ttl_index w) (calls w).

Definition set_open_conns (o : gset Connection) (w : World) : World :=
  mkWorld (pluralizer w) (accepts w) (clock w) (reachable w) (next_conn w) o
          (collections w) (ttl_index w) (calls w).

Definition set_collections (cs : gmap string (list CollectionInterface))
    (w : World) : World :=
  mkWorld (pluralizer w) (accepts w) (clock w) (reachable w) (next_conn w) (open_conns w)
          cs (ttl_index w) (calls w).

Definition set_ttl_index (t : gmap string Z) (w : World) : World :=
  mkWorld (pluralizer w) (accepts w) (clock w) (reachable w) (next_conn w) (open_conns w)
          (collections w) t (calls w).

Definition record (c : StoreCall) (w : World) : World :=
  mkWorld (pluralizer w) (accepts w) (clock w) (reachable w) (next_conn w) (open_conns w)
          (collections w) (ttl_index w) (c :: calls w).

Definition is_open (w : World) (c : Connection) : bool :=
  bool_decide (c ∈ open_conns w).

(** The documents of a collection; a collection that does not exist reads
    as empty. *)
Definition docs_of (w : World) (coll : string) : list CollectionInterface :=
  default [] (collections w !! coll).

(** [pluralize(null)]: switch mongoose's pluralization off. *)
Definition pluralize_null (w : World) : World := set_pluralizer None w.

(** The collection a model name maps to. *)
Definition toCollectionName (w : World) (name : string) : string :=
  match pluralizer w with
  | Some f => f name
  | None => name
  end.

(** [createConnection(url, options).asPromise()] *)
Definition createConnection (url : string) (w : World)
    : Result Connection * World :=
  let c := next_conn w in
  let w := set_next_conn (S c) (record (CallCreateConnection url) w) in
  if reachable w
  then (Ok c, set_open_conns ({[c]} ∪ open_conns w) w)
  else (Err ConnectionError, w).

(** [conn.close()] *)
Definition close (c : Connection) (w : World) : World :=
  set_open_conns (open_conns w ∖ {[c]}) (record (CallClose c) w).

(** The model [conn.model(name, schema)] compiles; the collection name is
    fixed now. *)
Definition compiled (c : Connection) (name : string) (w : World) : Model :=
  mkModel name (toCollectionName w name) c.

(** Does the client refuse to compile it?  On an open connection the
    collection is bound at once and its name is checked. *)
Definition refused (c : Connection) (name : string) (w : World) : bool :=
  is_open w c && negb (accepts w (toCollectionName w name)).

(** [conn.model(name, schema)]: local to the client, no command is sent;
    it throws when the client refuses the collection name. *)
Definition model (c : Connection) (name : string) (w : World)
    : Result Model * World :=
  if refused c name w
  then (Err MongoInvalidArgumentError, w)
  else (Ok (compiled c name w), w).

(** [model.collection.createIndex({ expireAt: 1 }, { expireAfterSeconds })].
    Creating an index creates the collection; an index on the same key
    with another option is a conflict. *)
Definition createIndex (m : Model) (expireAfterSeconds : Z) (w : World)
    : Result unit * World :=
  let coll := collectionName m in
  let w := record (CallCreateIndex (db m) coll) w in
  if is_open w (db m) then
    match ttl_index w !! coll with
    | Some s =>
        if Z.eqb s expireAfterSeconds then (Ok tt, w)
        else (Err BackendQueryError, w)
    | None =>
        (Ok tt,
         set_ttl_index (<[coll := expireAfterSeconds]> (ttl_index w))
           (set_collections (<[coll := docs_of w coll]> (collections w)) w))
    end
  else (Err BackendQueryError, w).

(** Does a document satisfy a filter?  [{ ID: s }] on a String path is
    string equality. *)
Definition matches (f : Filter) (d : CollectionInterface) : bool :=
  match f with
  | None => true
  | Some s => String.eqb (ID d) s
  end.

(** [model.find(filter)] *)
Definition find (m : Model) (f : Filter) (w : World)
    : Result (list CollectionInterface) * World :=
  let coll := collectionName m in
  let w := record (CallFind (db m) coll f) w in
  if is_open w (db m)
  then (Ok (List.filter (matches f) (docs_of w coll)), w)
  else (Err BackendQueryError, w).

(** [model.findOne(filter)]: the first match in natural order, or null. *)
Definition findOne (m : Model) (f : Filter) (w : World)
    : Result (option CollectionInterface) * World :=
  let coll := collectionName m in
  let w := record (CallFindOne (db m) coll f) w in
  if is_open w (db m)
  then (Ok (List.find (matches f) (docs_of w coll)), w)
  else (Err BackendQueryError, w).

(** [$set: { data: v }] on the first document with the given [ID]; the
    schema's [timestamps] add [updatedAt]. *)
Fixpoint update_first (key : string) (v : Value) (now : Z)
    (docs : list CollectionInterface) : option (list CollectionInterface) :=
  match docs with
  | [] => None
  | d :: rest =>
      if String.eqb (ID d) key
      then Some (mkDoc (ID d) v (createdAt d) now (expireAt d) :: rest)
      else option_map (cons d) (update_first key v now rest)
  end.

(** The document an upsert inserts: the filter's [ID], the [$set] payload,
    both timestamps, and the schema default for [expireAt]. *)
Definition inserted (key : string) (v : Value) (now : Z) : CollectionInterface :=
  mkDoc key v now now None.

Definition upsert (key : string) (v : Value) (now : Z)
    (docs : list CollectionInterface) : list CollectionInterface :=
  match update_first key v now docs with
  | Some docs' => docs'
  | None => (docs ++ [inserted key v now])%list
  end.

(** [model.findOneAndUpdate({ ID: key }, { $set: { data: v } },
    { upsert: true })]; resolves to the document as it was before. *)
Definition findOneAndUpdate (m : Model) (key : string) (v : Value) (w : World)
    : Result (option CollectionInterface) * World :=
  let coll := collectionName m in
  let w := record (CallFindOneAndUpdate (db m) coll (Some key)) w in
  if is_open w (db m) then
    let docs := docs_of w coll in
    (Ok (List.find (matches (Some key)) docs),
     set_collections (<[coll := upsert key v (clock w) docs]> (collections w)) w)
  else (Err BackendQueryError, w).

(** [model.deleteMany(filter)]; resolves to [deletedCount]. *)
Definition deleteMany (m : Model) (f : Filter) (w : World)
    : Result nat * World :=
  let coll := collectionName m in
  let w := record (CallDeleteMany (db m) coll f) w in
  if is_open w (db m) then
    (Ok (length (List.filter (matches f) (docs_of w coll))),
     set_collections
       (alter (List.filter (λ d, negb (matches f d))) coll (collections w)) w)
  else (Err BackendQueryError, w).

(** The server's expiry sweep: in every collection with an expiring index
    on [expireAt], documents whose [expireAt] plus the index's offset has
    been reached are removed. *)
Definition expired (now secs : Z) (d : CollectionInterface) : bool :=
  match expireAt d with
  | Some t => Z.leb (t + 1000 * secs) now
  | None => false
  end.

Definition sweep_collection (w : World) (coll : string)
    (docs : list CollectionInterface) : option (list CollectionInterface) :=
  match ttl_index w !! coll with
  | Some secs => Some (List.filter (λ d, negb (expired (clock w) secs d)) docs)
  | None => Some docs
  end.

Definition expiry_sweep (w : World) : World :=
  set_collections (map_imap (sweep_collection w) (collections w)) w.

End Store.

(** ** The driver *)

Module Driver.
Import Store.

(** The fields of a [MongoDriver] instance.  [docSchema] is the same
    constant for every instance; it is what [CollectionInterface], the
    schema default in [inserted] and the unique [ID] describe. *)
Record MongoDriver : Type := mkDriver {
  url : string;
  conn : option Connection;
  models : gmap string Model;
}.

Definition set_conn (c : option Connection) (d : MongoDriver) : MongoDriver :=
  mkDriver (url d) c (models d).

Definition set_models (ms : gmap string Model) (d : MongoDriver) : MongoDriver :=
  mkDriver (url d) (conn d) ms.

(** A method body: it runs on the store and on [this], and either returns
    or throws; what it mutated before throwing stays mutated. *)
Definition St : Type := World * MongoDriver.
Definition M (A : Type) : Type := St → Result A * St.

Definition ret {A} (a : A) : M A := λ st, (Ok a, st).

Definition throw {A} (e : Error) : M A := λ st, (Err e, st).

Definition bind {A B} (m : M A) (k : A → M B) : M B :=
  λ st, match m st with
        | (Ok a, st') => k a st'
        | (Err e, st') => (Err e, st')
        end.

(** [promise.catch(() => {})] *)
Definition swallow {A} (m : M A) : M unit :=
  λ st, (Ok tt, snd (m st)).

(** Read a property of [this]. *)
Definition this {A} (f : MongoDriver → A) : M A := λ st, (Ok (f (snd st)), st).

(** Assign to a property of [this]. *)
Definition assign (f : MongoDriver → MongoDriver) : M unit :=
  λ st, (Ok tt, (fst st, f (snd st))).

(** A store call that may reject. *)
Definition call {A} (f : World → Result A * World) : M A :=
  λ st, let '(r, w) := f (fst st) in (r, (w, snd st)).

(** A store call that cannot reject. *)
Definition call_ {A} (f : World → A * World) : M A :=
  λ st, let '(a, w) := f (fst st) in (Ok a, (w, snd st)).

Notation "'let*' x ':=' m 'in' k" := (bind m (λ x, k))
  (at level 10, x name, m at level 100, k at level 200).
Notation "m ';;' k" := (bind m (λ _, k))
  (at level 100, k at level 200, right associativity).

(** The value and the state a run ends with. *)
Definition result {A} (m : M A) (st : St) : Result A := fst (m st).
Definition after {A} (m : M A) (st : St) : St := snd (m st).
Definition succeeds {A} (m : M A) (st : St) : bool :=
  match result m st with
  | Ok _ => true
  | Err _ => false
  end.

(** [new MongoDriver(url, options, pluralizeP = false)] *)
Definition new (url : string) (pluralizeP : bool) (w : World) : St :=
  (if pluralizeP then w else pluralize_null w, mkDriver url None ∅).

(** [connect()]; resolves to [this]. *)
Definition connect : M MongoDriver :=
  let* u := this url in
  let* connection := call (createConnection u) in
  assign (set_conn (Some connection)) ;;
  this (λ d, d).

(** [disconnect()]: [this.conn?.close()] *)
Definition disconnect : M unit :=
  let* c := this conn in
  match c with
  | Some c => call_ (λ w, (tt, close c w))
  | None => ret tt
  end.

(** [if (this.conn == null) throw new Error(...)] *)
Definition checkConnection : M unit :=
  let* c := this conn in
  match c with
  | None => throw NotConnectedError
  | Some _ => ret tt
  end.

(** [modelSchema(modelName)]; the only caller, [prepare], passes the table
    name.  The index request is not awaited and its failure is dropped. *)
Definition modelSchema (modelName : string) : M Model :=
  checkConnection ;;
  let* c := this conn in
  match c with
  | None => throw TypeError
  | Some c =>
      let* model := call (model c modelName) in
      swallow (call (createIndex model 0)) ;;
      ret model
  end.

(** [if (!this.models.has(table)) this.models.set(table, ...)] *)
Definition prepare (table : string) : M unit :=
  checkConnection ;;
  let* known := this (λ d, models d !! table) in
  match known with
  | Some _ => ret tt
  | None =>
      let* model := modelSchema table in
      assign (λ d, set_models (<[table := model]> (models d)) d)
  end.

Definition getModel (name : string) : M (option Model) :=
  prepare name ;;
  this (λ d, models d !! name).

Definition toRow (row : CollectionInterface) : Row := mkRow (ID row) (data row).

Definition getAllRows (table : string) : M (list Row) :=
  checkConnection ;;
  let* model := getModel table in
  match model with
  | None => throw TypeError
  | Some model =>
      let* rows := call (find model None) in
      ret (map toRow rows)
  end.

Definition getRowByKey (table key : string) : M (Value * bool) :=
  checkConnection ;;
  let* model := getModel table in
  match model with
  | None => throw TypeError
  | Some model =>
      let* res := call (findOne model (Some key)) in
      ret match res with
          | Some res => (data res, true)
          | None => (VNull, false)
          end
  end.

(** The filter value of [getStartsWith]: the template literal
    [`/^${query}/`], a string. *)
Definition startsWithPattern (query : string) : string :=
  "/^" +:+ query +:+ "/".

Definition getStartsWith (table query : string) : M (list Row) :=
  checkConnection ;;
  let* model := getModel table in
  match model with
  | None => throw TypeError
  | Some model =>
      let* res := call (find model (Some (startsWithPattern query))) in
      ret (map toRow res)
  end.

(** [model?.findOneAndUpdate(...)], then [return value]. *)
Definition setRowByKey (table key : string) (value : Value) (_update : bool)
    : M Value :=
  checkConnection ;;
  let* model := getModel table in
  match model with
  | None => ret tt
  | Some model =>
      call (findOneAndUpdate model key value) ;; ret tt
  end ;;
  ret value.

Definition deleteAllRows (table : string) : M nat :=
  checkConnection ;;
  let* model := getModel table in
  match model with
  | None => throw TypeError
  | Some model => call (deleteMany model None)
  end.

Definition deleteRowByKey (table key : string) : M nat :=
  checkConnection ;;
  let* model := getModel table in
  match model with
  | None => throw TypeError
  | Some model => call (deleteMany model (Some key))
  end.

End Driver.

(** ** States of the driver *)

Module Lifecycle.
Import Store Driver.

(** The [Connected] state of the driver's life cycle: [this.conn] is set,
    that connection is open, and every handle in [this.models] was made on
    it (the driver connected once, before its first [prepare]). *)
Definition connected (st : St) : bool :=
  match conn (snd st) with
  | Some c =>
      is_open (fst st) c
      && bool_decide (map_Forall (λ _ m, db m = c) (models (snd st)))
  | None => false
  end.

(** The collection behind table [T]: the one its handle names, or the one
    a handle made now would name. *)
Definition collectionOf (st : St) (T : string) : string :=
  match models (snd st) !! T with
  | Some m => collectionName m
  | None => toCollectionName (fst st) T
  end.

(** The documents of table [T]. *)
Definition table (st : St) (T : string) : list CollectionInterface :=
  docs_of (fst st) (collectionOf st T).

(** [T] is a table name the client accepts: its collection has a name the
    client does not refuse. *)
Definition accepted (st : St) (T : string) : bool :=
  accepts (fst st) (collectionOf st T).

(** [T] has a handle, or can get one: it is registered, or its collection
    has a name the client accepts. *)
Definition admitted (st : St) (T : string) : bool :=
  match models (snd st) !! T with
  | Some _ => true
  | None => accepts (fst st) (toCollectionName (fst st) T)
  end.

(** The documents of a list whose [ID] is [K]. *)
Definition withID (K : string) (docs : list CollectionInterface)
    : list CollectionInterface :=
  List.filter (matches (Some K)) docs.

(** [ID] is unique within the table (the schema's [unique: true]). *)
Definition uniqueIDs (docs : list CollectionInterface) : Prop :=
  NoDup (map ID docs).

(** ... and within every collection of the store. *)
Definition unique_store (w : World) : Prop :=
  ∀ coll, uniqueIDs (docs_of w coll).

(** A method body that keeps a property of the store, however it ends. *)
Definition preserves {A} (P : World → Prop) (m : M A) : Prop :=
  ∀ st, P (fst st) → P (fst (after m st)).

(** Two stores that differ only in the log of calls and in indexes. *)
Definition same_data (w w' : World) : Prop :=
  pluralizer w' = pluralizer w ∧ clock w' = clock w
  ∧ open_conns w' = open_conns w
  ∧ accepts w' = accepts w
  ∧ ∀ coll, docs_of w' coll = docs_of w coll.

(** What an operation on table [T] keeps: the driver stays [Connected],
    the table keeps its collection and has a handle, the clock and the
    client's check are the same. *)
Definition settled (st st' : St) (T : string) : Prop :=
  connected st' = true ∧ collectionOf st' T = collectionOf st T
  ∧ clock (fst st') = clock (fst st)
  ∧ models (snd st') !! T ≠ None
  ∧ accepts (fst st') = accepts (fst st).

(** The data operations of the driver contract, and the state one leaves. *)
Inductive DataOp : Type :=
| Prepare (T : string)
| GetAllRows (T : string)
| GetRowByKey (T K : string)
| GetStartsWith (T P : string)
| SetRowByKey (T K : string) (V : Value) (flag : bool)
| DeleteAllRows (T : string)
| DeleteRowByKey (T K : string).

Definition step (st : St) (op : DataOp) : St :=
  match op with
  | Prepare T => after (prepare T) st
  | GetAllRows T => after (getAllRows T) st
  | GetRowByKey T K => after (getRowByKey T K) st
  | GetStartsWith T P => after (getStartsWith T P) st
  | SetRowByKey T K V flag => after (setRowByKey T K V flag) st
  | DeleteAllRows T => after (deleteAllRows T) st
  | DeleteRowByKey T K => after (deleteRowByKey T K) st
  end.

End Lifecycle.

(** ** Sample states *)

Module Samples.
Import Store Driver Lifecycle.

(** A client that refuses the empty name and every name with a dollar
    sign. *)
Definition client_check (name : string) : bool :=
  negb (String.eqb name "")
  && match String.index 0 "$" name with
     | Some _ => false
     | None => true
     end.

(** A store with no collection, no index and no connection, with
    pluralization switched off, whose server accepts connections. *)
Definition empty_world : World :=
  mkWorld None client_check 0 true 0%nat ∅ ∅ ∅ [].

(** [new MongoDriver("mongodb://localhost/quickdb")] on that store. *)
Definition fresh : St := new "mongodb://localhost/quickdb" false empty_world.

(** ... then [connect()]. *)
Definition online : St := after connect fresh.

(** ... or [connect()] and [disconnect()]. *)
Definition offline : St := after (connect ;; disconnect) fresh.

(** A table registered on a first connection, and a second [connect()]. *)
Definition registered : St := after (connect ;; prepare "cache") fresh.
Definition reconnected : St := after (disconnect ;; connect) registered.

(** Three keys, two of them with the prefix [user:]. *)
Definition users : St :=
  after (setRowByKey "t" "user:1" (VNum 1) false ;;
         setRowByKey "t" "user:2" (VNum 2) false ;;
         setRowByKey "t" "group:1" (VNum 3) false) online.

(** Two rows, and a row holding null. *)
Definition two_rows : St :=
  after (setRowByKey "cache" "a" VNull false ;;
         setRowByKey "cache" "b" VNull false) online.
Definition null_row : St := after (setRowByKey "cache" "a" VNull false) online.

(** A store at time 1000 with the expiring index on "cache" and one
    document that expired at time 500. *)
Definition stale_world : World :=
  mkWorld None client_check 1000 true 1%nat {[0%nat]}
    {["cache" := [mkDoc "session:42" (VNum 7) 0 0 (Some 500)]]}
    {["cache" := 0]} [].

(** A store at time 1000 where "cache" already has an index on
    [expireAt] with an offset of one hour, and one document whose
    [expireAt] was time 500; and a driver connected to it that has
    prepared "cache". *)
Definition hourly_world : World :=
  mkWorld None client_check 1000 true 0%nat ∅
    {["cache" := [mkDoc "session:42" (VNum 7) 0 0 (Some 500)]]}
    {["cache" := 3600]} [].

Definition hourly : St :=
  after (connect ;; prepare "cache")
    (new "mongodb://localhost/quickdb" false hourly_world).

End Samples.

(** ** The driver contract, operation by operation *)

Module Contract.
Import Store Driver Lifecycle.

(** The table a data operation works on. *)
Definition op_table (op : DataOp) : string :=
  match op with
  | Prepare T | GetAllRows T | GetRowByKey T _ | GetStartsWith T _
  | SetRowByKey T _ _ _ | DeleteAllRows T | DeleteRowByKey T _ => T
  end.

(** The store as the one command of a data operation leaves it, given the
    handle the operation got from [getModel]. *)
Definition command (op : DataOp) (m : Model) (w : World) : World :=
  match op with
  | Prepare _ => w
  | GetAllRows _ => snd (find m None w)
  | GetRowByKey _ K => snd (findOne m (Some K) w)
  | GetStartsWith _ P => snd (find m (Some (startsWithPattern P)) w)
  | SetRowByKey _ K V _ => snd (findOneAndUpdate m K V w)
  | DeleteAllRows _ => snd (deleteMany m None w)
  | DeleteRowByKey _ K => snd (deleteMany m (Some K) w)
  end.

(** The error a run ends with, if any. *)
Definition failure {A} (r : Result A) : option Error :=
  match r with
  | Ok _ => None
  | Err e => Some e
  end.

Definition error_of (st : St) (op : DataOp) : option Error :=
  match op with
  | Prepare T => failure (result (prepare T) st)
  | GetAllRows T => failure (result (getAllRows T) st)
  | GetRowByKey T K => failure (result (getRowByKey T K) st)
  | GetStartsWith T P => failure (result (getStartsWith T P) st)
  | SetRowByKey T K V flag => failure (result (setRowByKey T K V flag) st)
  | DeleteAllRows T => failure (result (deleteAllRows T) st)
  | DeleteRowByKey T K => failure (result (deleteRowByKey T K) st)
  end.

(** Does every operation of a session return normally? *)
Fixpoint all_succeed (st : St) (ops : list DataOp) : bool :=
  match ops with
  | [] => true
  | op :: rest =>
      match error_of st op with
      | None => all_succeed (step st op) rest
      | Some _ => false
      end
  end.

(** The error of the one command of a data operation, if the store
    rejects it. *)
Definition command_error (op : DataOp) (m : Model) (w : World) : option Error :=
  match op with
  | Prepare _ => None
  | GetAllRows _ => failure (fst (find m None w))
  | GetRowByKey _ K => failure (fst (findOne m (Some K) w))
  | GetStartsWith _ P => failure (fst (find m (Some (startsWithPattern P)) w))
  | SetRowByKey _ K V _ => failure (fst (findOneAndUpdate m K V w))
  | DeleteAllRows _ => failure (fst (deleteMany m None w))
  | DeleteRowByKey _ K => failure (fst (deleteMany m (Some K) w))
  end.

(** The operations that only read. *)
Definition reads (op : DataOp) : bool :=
  match op with
  | Prepare _ | GetAllRows _ | GetRowByKey _ _ | GetStartsWith _ _ => true
  | SetRowByKey _ _ _ _ | DeleteAllRows _ | DeleteRowByKey _ _ => false
  end.

(** The store at another time. *)
Definition at_time (t : Z) (w : World) : World :=
  mkWorld (pluralizer w) (accepts w) t (reachable w) (next_conn w) (open_conns w)
          (collections w) (ttl_index w) (calls w).

(** The rows with a given id. *)
Definition rowsWithId (K : string) (rows : list Row) : list Row :=
  List.filter (λ r, String.eqb (id r) K) rows.

(** The rows with another id. *)
Definition rowsWithoutId (K : string) (rows : list Row) : list Row :=
  List.filter (λ r, negb (String.eqb (id r) K)) rows.

(** *** More sample states *)

(** A store whose server refuses connections. *)
Definition unreachable_world : World :=
  mkWorld None Samples.client_check 0 false 0%nat ∅ ∅ ∅ [].

(** A store where "cache" already has an index on [expireAt] with an
    offset of one hour. *)
Definition conflict_world : World :=
  mkWorld None Samples.client_check 0 true 0%nat ∅ ∅ {["cache" := 3600]} [].

(** A connected driver with one row in each of two tables. *)
Definition two_tables : St :=
  after (setRowByKey "cache" "k" (VNum 1) false ;;
         setRowByKey "users" "u" (VNum 2) false) Samples.online.

End Contract.

(** ** Lemmas on the store *)

Module StoreFacts.
Import Store Driver Lifecycle.

Lemma is_open_record c w x : is_open (record c w) x = is_open w x.
Proof. done. Qed.

Lemma docs_of_record c w coll : docs_of (record c w) coll = docs_of w coll.
Proof. done. Qed.

Lemma same_data_record c w : same_data w (record c w).
Proof. by repeat split. Qed.

Lemma docs_of_insert w coll docs coll' :
  docs_of (set_collections (<[coll := docs]> (collections w)) w) coll'
  = if decide (coll = coll') then docs else docs_of w coll'.
Proof.
  unfold docs_of; simpl. rewrite lookup_insert. by case_decide.
Qed.

Lemma docs_of_alter f w coll coll' :
  f [] = [] →
  docs_of (set_collections (alter f coll (collections w)) w) coll'
  = if decide (coll = coll') then f (docs_of w coll) else docs_of w coll'.
Proof.
  intros Hf. unfold docs_of; simpl. rewrite lookup_alter.
  case_decide; [|done]. subst coll'. by destruct (collections w !! coll).
Qed.

Lemma createIndex_same_data m s w : same_data w (snd (createIndex m s w)).
Proof.
  unfold createIndex. cbn zeta.
  destruct (is_open _ _); [|apply same_data_record].
  destruct (ttl_index _ !! _) as [s'|] eqn:E.
  - destruct (Z.eqb s' s); apply same_data_record.
  - repeat split; simpl. intros coll.
    unfold docs_of at 1; simpl. rewrite lookup_insert.
    case_decide; [by subst|done].
Qed.

Lemma createIndex_registers m w :
  is_open w (db m) = true →
  (ttl_index w !! collectionName m = None
   ∨ ttl_index w !! collectionName m = Some 0%Z) →
  ttl_index (snd (createIndex m 0 w)) !! collectionName m = Some 0%Z.
Proof.
  intros Ho Hi. unfold createIndex. cbn zeta.
  replace (is_open (record _ w) (db m)) with true by done.
  replace (ttl_index (record _ w)) with (ttl_index w) by done.
  destruct Hi as [Hi|Hi]; rewrite Hi; simpl; [by rewrite lookup_insert_eq|done].
Qed.

Lemma withID_deleted docs K :
  withID K (List.filter (λ d, negb (matches (Some K) d)) docs) = [].
Proof.
  unfold withID. induction docs as [|d docs IH]; [done|]. simpl.
  destruct (String.eqb (ID d) K) eqn:E; simpl; [done|]. by rewrite E.
Qed.

(** *** Lists of documents *)

Lemma filter_all docs : List.filter (matches None) docs = docs.
Proof. induction docs; simpl; congruence. Qed.

Lemma withID_nil_iff K docs : withID K docs = [] ↔ K ∉ map ID docs.
Proof.
  unfold withID. induction docs as [|d docs IH]; simpl.
  - split; [intros _; apply not_elem_of_nil|done].
  - rewrite not_elem_of_cons. destruct (String.eqb (ID d) K) eqn:E.
    + apply String.eqb_eq in E. split; [done|]. intros [Hne _]. by destruct Hne.
    + apply String.eqb_neq in E. rewrite IH. split; [|tauto].
      intros HK. split; [congruence|done].
Qed.

Lemma find_withID K docs :
  List.find (matches (Some K)) docs = head (withID K docs).
Proof.
  unfold withID. induction docs as [|d docs IH]; [done|]. simpl.
  by destruct (String.eqb (ID d) K).
Qed.

Lemma upsert_nil K V now : upsert K V now [] = [inserted K V now].
Proof. done. Qed.

Lemma upsert_cons K V now d docs :
  upsert K V now (d :: docs)
  = if String.eqb (ID d) K
    then mkDoc (ID d) V (createdAt d) now (expireAt d) :: docs
    else d :: upsert K V now docs.
Proof.
  unfold upsert; simpl. destruct (String.eqb (ID d) K); [done|].
  by destruct (update_first K V now docs).
Qed.

(** An upsert keeps the keys that were there, in place, and adds [K] at
    the end only when it was missing. *)
Lemma ID_upsert K V now docs :
  map ID (upsert K V now docs)
  = if bool_decide (K ∈ map ID docs) then map ID docs else (map ID docs ++ [K])%list.
Proof.
  induction docs as [|d docs IH].
  - by rewrite upsert_nil.
  - rewrite upsert_cons. simpl. destruct (String.eqb (ID d) K) eqn:E.
    + apply String.eqb_eq in E. simpl. rewrite bool_decide_eq_true_2; [done|].
      rewrite E. apply list_elem_of_here.
    + apply String.eqb_neq in E. simpl. rewrite IH.
      destruct (bool_decide (K ∈ map ID docs)) eqn:B.
      * apply bool_decide_eq_true in B. rewrite bool_decide_eq_true_2; [done|].
        by apply list_elem_of_further.
      * apply bool_decide_eq_false in B. rewrite bool_decide_eq_false_2; [done|].
        rewrite not_elem_of_cons. split; [congruence|done].
Qed.

Lemma uniqueIDs_upsert K V now docs :
  uniqueIDs docs → uniqueIDs (upsert K V now docs).
Proof.
  unfold uniqueIDs. intros Hu. rewrite ID_upsert. case_bool_decide; [done|].
  apply NoDup_app. split; [done|]. split; [|apply NoDup_singleton].
  intros x Hx ->%list_elem_of_singleton. done.
Qed.

Lemma find_upsert K V now docs :
  ∃ doc, List.find (matches (Some K)) (upsert K V now docs) = Some doc
         ∧ ID doc = K ∧ data doc = V.
Proof.
  induction docs as [|d docs IH].
  - exists (inserted K V now). rewrite upsert_nil. simpl.
    by rewrite String.eqb_refl.
  - rewrite upsert_cons. destruct (String.eqb (ID d) K) eqn:E.
    + eexists. simpl. rewrite E. apply String.eqb_eq in E. done.
    + simpl. by rewrite E.
Qed.

Lemma withID_upsert K V now docs :
  uniqueIDs docs →
  ∃ doc, withID K (upsert K V now docs) = [doc] ∧ ID doc = K ∧ data doc = V.
Proof.
  unfold uniqueIDs. induction docs as [|d docs IH]; intros Hu.
  - exists (inserted K V now). rewrite upsert_nil. unfold withID. simpl.
    by rewrite String.eqb_refl.
  - rewrite upsert_cons. simpl in Hu. apply NoDup_cons in Hu as [Hd Hu].
    destruct (String.eqb (ID d) K) eqn:E.
    + exists (mkDoc (ID d) V (createdAt d) now (expireAt d)).
      unfold withID. simpl. rewrite E. apply String.eqb_eq in E.
      split; [|done]. f_equal. apply withID_nil_iff. by rewrite <- E.
    + destruct (IH Hu) as (doc & Hw & HI & HV). exists doc.
      unfold withID in *. simpl. by rewrite E.
Qed.

Lemma withID_length K docs : uniqueIDs docs → (length (withID K docs) ≤ 1)%nat.
Proof.
  unfold uniqueIDs, withID. induction docs as [|d docs IH]; simpl; [lia|].
  intros [Hd Hu]%NoDup_cons. destruct (String.eqb (ID d) K) eqn:E.
  - apply String.eqb_eq in E. simpl.
    assert (withID K docs = []) as Hn by (apply withID_nil_iff; by rewrite <- E).
    unfold withID in Hn. rewrite Hn. simpl. lia.
  - by apply IH.
Qed.

Lemma uniqueIDs_filter (P : CollectionInterface → bool) docs :
  uniqueIDs docs → uniqueIDs (List.filter P docs).
Proof.
  unfold uniqueIDs. induction docs as [|d docs IH]; simpl; [done|].
  intros [Hd Hu]%NoDup_cons. destruct (P d); [|by apply IH].
  simpl. apply NoDup_cons. split; [|by apply IH].
  intros (x & Hx & Hin)%list_elem_of_fmap. apply Hd.
  apply list_elem_of_fmap. exists x. split; [done|].
  apply list_elem_of_In. apply list_elem_of_In in Hin.
  by apply List.filter_In in Hin as [? _].
Qed.

(** *** The expiry sweep *)

Lemma docs_of_sweep w coll :
  docs_of (expiry_sweep w) coll
  = match ttl_index w !! coll with
    | Some secs =>
        List.filter (λ d, negb (expired (clock w) secs d)) (docs_of w coll)
    | None => docs_of w coll
    end.
Proof.
  unfold docs_of, expiry_sweep; simpl. rewrite map_lookup_imap.
  unfold sweep_collection.
  destruct (collections w !! coll) as [docs|]; simpl;
    by destruct (ttl_index w !! coll).
Qed.

Lemma withID_swept K now docs :
  (∀ doc, doc ∈ withID K docs → ∃ t, expireAt doc = Some t ∧ (t < now)%Z) →
  withID K (List.filter (λ d, negb (expired now 0 d)) docs) = [].
Proof.
  unfold withID. induction docs as [|d docs IH]; [done|]. simpl. intros Hall.
  destruct (String.eqb (ID d) K) eqn:E.
  - destruct (Hall d) as (t & Ht & Hlt); [apply list_elem_of_here|].
    unfold expired at 1. rewrite Ht.
    replace (Z.leb (t + 1000 * 0) now) with true
      by (symmetry; apply Z.leb_le; lia).
    simpl. apply IH. intros doc Hdoc. apply Hall. by apply list_elem_of_further.
  - destruct (negb (expired now 0 d)); simpl; [rewrite E|]; by apply IH.
Qed.

(** *** Unique [ID]s are an invariant of the store *)

Lemma unique_same_data w w' :
  same_data w w' → unique_store w → unique_store w'.
Proof. intros (_ & _ & _ & _ & Hd) Hu coll. rewrite Hd. apply Hu. Qed.

Lemma createConnection_unique u w :
  unique_store w → unique_store (snd (createConnection u w)).
Proof. unfold createConnection. simpl. by destruct (reachable w). Qed.

Lemma close_unique c w : unique_store w → unique_store (close c w).
Proof. done. Qed.

Lemma createIndex_unique m secs w :
  unique_store w → unique_store (snd (createIndex m secs w)).
Proof. apply unique_same_data, createIndex_same_data. Qed.

Lemma find_unique m f w : unique_store w → unique_store (snd (find m f w)).
Proof. unfold find. cbn zeta. by destruct (is_open _ _). Qed.

Lemma findOne_unique m f w :
  unique_store w → unique_store (snd (findOne m f w)).
Proof. unfold findOne. cbn zeta. by destruct (is_open _ _). Qed.

Lemma findOneAndUpdate_unique m K V w :
  unique_store w → unique_store (snd (findOneAndUpdate m K V w)).
Proof.
  intros Hu. unfold findOneAndUpdate. cbn zeta.
  destruct (is_open _ _); [|done]. intros coll. cbn [snd].
  rewrite docs_of_insert. case_decide; [|apply Hu].
  apply uniqueIDs_upsert, Hu.
Qed.

Lemma deleteMany_unique m f w :
  unique_store w → unique_store (snd (deleteMany m f w)).
Proof.
  intros Hu. unfold deleteMany. cbn zeta.
  destruct (is_open _ _); [|done]. intros coll. cbn [snd].
  rewrite docs_of_alter by done. case_decide; [|apply Hu].
  apply uniqueIDs_filter, Hu.
Qed.

Lemma expiry_sweep_unique w : unique_store w → unique_store (expiry_sweep w).
Proof.
  intros Hu coll. rewrite docs_of_sweep.
  destruct (ttl_index w !! coll); [|apply Hu]. apply uniqueIDs_filter, Hu.
Qed.

End StoreFacts.

(** ** Lemmas on the driver's plumbing *)

Module DriverFacts.
Import Store Driver Lifecycle Contract StoreFacts.

Lemma connected_inv st :
  connected st = true →
  ∃ c, conn (snd st) = Some c ∧ is_open (fst st) c = true
       ∧ map_Forall (λ _ m, db m = c) (models (snd st)).
Proof.
  unfold connected. destruct (conn (snd st)) as [c|]; [|done].
  intros [Ho Hm%bool_decide_eq_true]%andb_true_iff. by exists c.
Qed.

Lemma connected_intro st c :
  conn (snd st) = Some c → is_open (fst st) c = true →
  map_Forall (λ _ m, db m = c) (models (snd st)) →
  connected st = true.
Proof.
  intros Hc Ho Hm. unfold connected. rewrite Hc, Ho. simpl.
  by apply bool_decide_eq_true.
Qed.

Lemma checkConnection_set st c :
  conn (snd st) = Some c → checkConnection st = (Ok tt, st).
Proof. intros Hc. unfold checkConnection, bind, this. by rewrite Hc. Qed.

Lemma checkConnection_unset st :
  conn (snd st) = None → checkConnection st = (Err NotConnectedError, st).
Proof. intros Hc. unfold checkConnection, bind, this. by rewrite Hc. Qed.

(** A registered table: [getModel] hands back the registered handle and
    touches nothing. *)
Lemma getModel_known st T c m :
  conn (snd st) = Some c → models (snd st) !! T = Some m →
  getModel T st = (Ok (Some m), st).
Proof.
  intros Hc Hm. unfold getModel, prepare, bind at 1 2.
  rewrite (checkConnection_set _ _ Hc). unfold bind, this. rewrite Hm.
  simpl. by rewrite Hm.
Qed.

(** An unregistered table whose name the client does not refuse: a handle
    is made on [this.conn], the index is requested, and the handle is
    registered. *)
Lemma prepare_fresh w d T c :
  conn d = Some c → models d !! T = None → refused c T w = false →
  prepare T (w, d)
  = (Ok tt,
     (snd (createIndex (compiled c T w) 0 w),
      set_models (<[T := compiled c T w]> (models d)) d)).
Proof.
  intros Hc Hm Hr. unfold prepare, bind at 1.
  rewrite (checkConnection_set (w, d) c Hc). unfold bind at 1, this at 1.
  simpl. rewrite Hm. unfold modelSchema, bind at 1 2.
  rewrite (checkConnection_set (w, d) c Hc).
  unfold bind, this, call, model, swallow, assign, ret. cbn [fst snd].
  rewrite Hc. cbn [fst snd]. rewrite Hr. cbn [fst snd].
  by destruct (createIndex (compiled c T w) 0 w) as [r w'] eqn:E.
Qed.

(** An unregistered table whose name the client refuses: [conn.model]
    throws, and nothing was touched. *)
Lemma prepare_refused w d T c :
  conn d = Some c → models d !! T = None → refused c T w = true →
  prepare T (w, d) = (Err MongoInvalidArgumentError, (w, d)).
Proof.
  intros Hc Hm Hr. unfold prepare, bind at 1.
  rewrite (checkConnection_set (w, d) c Hc). unfold bind at 1, this at 1.
  simpl. rewrite Hm. unfold modelSchema, bind at 1 2.
  rewrite (checkConnection_set (w, d) c Hc).
  unfold bind, this, call, model. cbn [fst snd].
  rewrite Hc. cbn [fst snd]. by rewrite Hr.
Qed.

Lemma getModel_fresh w d T c :
  conn d = Some c → models d !! T = None → refused c T w = false →
  getModel T (w, d)
  = (Ok (Some (compiled c T w)),
     (snd (createIndex (compiled c T w) 0 w),
      set_models (<[T := compiled c T w]> (models d)) d)).
Proof.
  intros Hc Hm Hr. unfold getModel, bind.
  rewrite (prepare_fresh w d T c Hc Hm Hr). unfold this. cbn [fst snd].
  unfold set_models at 1. cbn [models]. by rewrite lookup_insert_eq.
Qed.

Lemma getModel_refused w d T c :
  conn d = Some c → models d !! T = None → refused c T w = true →
  getModel T (w, d) = (Err MongoInvalidArgumentError, (w, d)).
Proof.
  intros Hc Hm Hr. unfold getModel, bind.
  by rewrite (prepare_refused w d T c Hc Hm Hr).
Qed.

(** In the [Connected] state, for a table that has a handle or can get
    one, [getModel] succeeds with a handle on the open connection, and
    leaves the stored documents as they were. *)
Lemma getModel_connected st T :
  connected st = true →
  admitted st T = true →
  ∃ m st',
    getModel T st = (Ok (Some m), st')
    ∧ models (snd st') !! T = Some m
    ∧ collectionName m = collectionOf st T
    ∧ is_open (fst st') (db m) = true
    ∧ conn (snd st') = conn (snd st)
    ∧ connected st' = true
    ∧ same_data (fst st) (fst st').
Proof.
  intros (c & Hc & Ho & Hm)%connected_inv Hadm.
  destruct st as [w d]; simpl in *. unfold admitted in Hadm. simpl in Hadm.
  destruct (models d !! T) as [m|] eqn:E.
  - exists m, (w, d). rewrite (getModel_known (w, d) T c m Hc E).
    unfold collectionOf; simpl. rewrite E.
    rewrite (Hm _ _ E). repeat split; try done.
    by apply (connected_intro (w, d) c).
  - assert (refused c T w = false) as Hr.
    { unfold refused. by rewrite Hadm, andb_false_r. }
    exists (compiled c T w), (snd (createIndex (compiled c T w) 0 w),
                              set_models (<[T := compiled c T w]> (models d)) d).
    rewrite (getModel_fresh w d T c Hc E Hr).
    pose proof (createIndex_same_data (compiled c T w) 0 w) as Hs.
    assert (is_open (snd (createIndex (compiled c T w) 0 w)) c = true) as Ho'.
    { unfold is_open. destruct Hs as (_ & _ & -> & _). done. }
    unfold collectionOf; simpl. rewrite E, lookup_insert_eq.
    repeat split; try done; try apply Hs.
    apply (connected_intro _ c); simpl; [done..|].
    by apply map_Forall_insert_2.
Qed.

(** The two ways a table fails to be admitted or not, from the client's
    check. *)
Lemma admitted_accepted st T : accepted st T = true → admitted st T = true.
Proof.
  unfold accepted, admitted, collectionOf.
  by destruct (models (snd st) !! T).
Qed.

Lemma connected_same_conns w w' d :
  open_conns w' = open_conns w → connected (w, d) = true →
  connected (w', d) = true.
Proof. unfold connected, is_open; simpl. by intros ->. Qed.

(** *** What each operation does in the [Connected] state *)

Section Connected.

Variables (st : St) (T : string).
Hypothesis Hst : connected st = true.
Hypothesis Hadm : admitted st T = true.

(** The common prefix of every data operation: the guard passes and
    [getModel] yields a handle [m] on the open connection, in a store [w]
    that holds the same documents. *)
Lemma enter :
  ∃ m w d,
    checkConnection st = (Ok tt, st)
    ∧ getModel T st = (Ok (Some m), (w, d))
    ∧ is_open w (db m) = true
    ∧ docs_of w (collectionName m) = table st T
    ∧ clock w = clock (fst st)
    ∧ ∀ w', open_conns w' = open_conns w → clock w' = clock w →
            accepts w' = accepts w →
            settled st (w', d) T
            ∧ table (w', d) T = docs_of w' (collectionName m).
Proof.
  destruct (getModel_connected st T Hst Hadm)
    as (m & [w d] & Hg & Hm & Hcoll & Ho & Hc & Hst' & Hs).
  destruct (connected_inv st Hst) as (c & Hconn & _).
  exists m, w, d. simpl in *.
  destruct Hs as (_ & Hclock & _ & Hacc & Hdocs).
  repeat split; try done.
  - by apply (checkConnection_set st c).
  - unfold table. by rewrite Hdocs, Hcoll.
  - by apply (connected_same_conns w).
  - unfold collectionOf at 1; simpl. by rewrite Hm.
  - simpl. congruence.
  - simpl. by rewrite Hm.
  - simpl. congruence.
  - unfold table, collectionOf; simpl. by rewrite Hm.
Qed.

Ltac enter :=
  destruct enter
    as (m & w & d & Hcheck & Hget & Hopen & Hdocs & Hclock & Hleave).

Lemma getAllRows_connected :
  ∃ st', getAllRows T st = (Ok (map toRow (table st T)), st')
         ∧ settled st st' T ∧ table st' T = table st T.
Proof.
  enter. eexists. unfold getAllRows, bind. rewrite Hcheck, Hget.
  unfold call, find, ret. cbn [fst snd].
  rewrite is_open_record, Hopen. cbn [fst snd].
  rewrite docs_of_record, Hdocs, filter_all. split; [done|].
  destruct (Hleave (record (CallFind (db m) (collectionName m) None) w))
    as [Hs ->]; [done..|]. by rewrite docs_of_record.
Qed.

Lemma getRowByKey_connected K :
  ∃ st', getRowByKey T K st
         = (Ok match head (withID K (table st T)) with
               | Some res => (data res, true)
               | None => (VNull, false)
               end, st')
         ∧ settled st st' T ∧ table st' T = table st T.
Proof.
  enter. eexists. unfold getRowByKey, bind. rewrite Hcheck, Hget.
  unfold call, findOne, ret. cbn [fst snd].
  rewrite is_open_record, Hopen. cbn [fst snd].
  rewrite docs_of_record, Hdocs, find_withID. split; [done|].
  destruct (Hleave (record (CallFindOne (db m) (collectionName m) (Some K)) w))
    as [Hs ->]; [done..|]. by rewrite docs_of_record.
Qed.

Lemma getStartsWith_connected P :
  ∃ st', getStartsWith T P st
         = (Ok (map toRow (withID (startsWithPattern P) (table st T))), st')
         ∧ settled st st' T ∧ table st' T = table st T.
Proof.
  enter. eexists. unfold getStartsWith, bind. rewrite Hcheck, Hget.
  unfold call, find, ret. cbn [fst snd].
  rewrite is_open_record, Hopen. cbn [fst snd].
  rewrite docs_of_record, Hdocs. split; [done|].
  destruct (Hleave (record (CallFind (db m) (collectionName m)
                              (Some (startsWithPattern P))) w))
    as [Hs ->]; [done..|]. by rewrite docs_of_record.
Qed.

Lemma setRowByKey_connected K V flag :
  ∃ st', setRowByKey T K V flag st = (Ok V, st')
         ∧ settled st st' T
         ∧ table st' T = upsert K V (clock (fst st)) (table st T).
Proof.
  enter. eexists. unfold setRowByKey, bind. rewrite Hcheck, Hget.
  unfold call, findOneAndUpdate, ret. cbn [fst snd].
  rewrite is_open_record, Hopen. cbn [fst snd].
  rewrite docs_of_record, Hdocs. split; [done|].
  edestruct Hleave as [Hs ->]; [| | |split; [exact Hs|]]; [done..|].
  rewrite docs_of_insert, decide_True by done.
  by replace (clock (record (CallFindOneAndUpdate (db m) (collectionName m)
                               (Some K)) w)) with (clock (fst st)).
Qed.

Lemma deleteMany_connected f :
  ∃ m w d,
    getModel T st = (Ok (Some m), (w, d))
    ∧ ∃ st', call (deleteMany m f) (w, d)
             = (Ok (length (List.filter (matches f) (table st T))), st')
             ∧ settled st st' T
             ∧ table st' T
               = List.filter (λ d, negb (matches f d)) (table st T).
Proof.
  enter. exists m, w, d. split; [done|]. eexists.
  unfold call, deleteMany. cbn [fst snd].
  rewrite is_open_record, Hopen. cbn [fst snd].
  rewrite docs_of_record, Hdocs. split; [done|].
  edestruct Hleave as [Hs ->]; [| | |split; [exact Hs|]]; [done..|].
  rewrite docs_of_alter, decide_True by done. by rewrite docs_of_record, Hdocs.
Qed.

Lemma deleteRowByKey_connected K :
  ∃ st', deleteRowByKey T K st = (Ok (length (withID K (table st T))), st')
         ∧ settled st st' T
         ∧ table st' T
           = List.filter (λ d, negb (matches (Some K) d)) (table st T).
Proof.
  destruct (deleteMany_connected (Some K))
    as (m & w & d & Hget & st' & Hdel & Hrest).
  destruct enter as (_ & _ & _ & Hcheck & _).
  exists st'. unfold deleteRowByKey, bind. by rewrite Hcheck, Hget.
Qed.

Lemma deleteAllRows_connected :
  ∃ st', deleteAllRows T st = (Ok (length (table st T)), st')
         ∧ settled st st' T ∧ table st' T = [].
Proof.
  destruct (deleteMany_connected None)
    as (m & w & d & Hget & st' & Hdel & Hs & Hrest).
  destruct enter as (_ & _ & _ & Hcheck & _).
  exists st'. unfold deleteAllRows, bind. rewrite Hcheck, Hget, Hdel.
  rewrite filter_all. split; [done|]. split; [done|].
  rewrite Hrest. generalize (table st T) as docs.
  induction docs as [|doc docs IH]; [done|exact IH].
Qed.

Lemma prepare_connected :
  result (prepare T) st = Ok tt ∧ connected (after (prepare T) st) = true.
Proof.
  destruct (getModel_connected st T Hst Hadm)
    as (m & st' & Hg & _ & _ & _ & _ & Hst' & _).
  revert Hg. unfold getModel, bind, this, result, after.
  destruct (prepare T st) as [[[]|e] st1]; [|done]. by intros [= _ ->].
Qed.

End Connected.

(** *** The life cycle *)

Lemma disconnect_run w d : ∃ w', disconnect (w, d) = (Ok tt, (w', d)).
Proof.
  unfold disconnect, bind, this. cbn [fst snd].
  destruct (conn d) as [c|]; by eexists.
Qed.

Lemma connect_run w d :
  connect (w, d)
  = match createConnection (url d) w with
    | (Ok c, w') => (Ok (set_conn (Some c) d), (w', set_conn (Some c) d))
    | (Err e, w') => (Err e, (w', d))
    end.
Proof.
  unfold connect, bind, this, call, assign. cbn [fst snd].
  by destruct (createConnection (url d) w) as [[c|e] w'].
Qed.

Lemma createConnection_open u w c w' :
  createConnection u w = (Ok c, w') → is_open w' c = true.
Proof.
  unfold createConnection. destruct (reachable _); [|done]. intros [= <- <-].
  unfold is_open; simpl. apply bool_decide_eq_true. set_solver.
Qed.

(** A driver just constructed reaches the [Connected] state by
    [connect()] whenever the server accepts the connection. *)
Lemma connect_establishes w d :
  models d = ∅ → reachable w = true →
  succeeds connect (w, d) = true ∧ connected (after connect (w, d)) = true.
Proof.
  intros Hm Hr. unfold succeeds, result, after. rewrite connect_run.
  destruct (createConnection (url d) w) as [[c|e] w'] eqn:Hcc.
  - split; [done|]. apply (connected_intro _ c); simpl; [done| |].
    + by apply (createConnection_open (url d) w).
    + rewrite Hm. apply map_Forall_empty.
  - revert Hcc. unfold createConnection. simpl. by rewrite Hr.
Qed.

(** An operation on an unregistered table whose name the client refuses
    throws in [conn.model] and changes nothing. *)
Lemma step_refused w d op c :
  conn d = Some c → models d !! op_table op = None →
  refused c (op_table op) w = true →
  step (w, d) op = (w, d)
  ∧ error_of (w, d) op = Some MongoInvalidArgumentError.
Proof.
  intros Hc Hm Hr.
  pose proof (checkConnection_set (w, d) c Hc) as Hg.
  pose proof (getModel_refused w d (op_table op) c Hc Hm Hr) as Hget.
  pose proof (prepare_refused w d (op_table op) c Hc Hm Hr) as Hprep.
  destruct op as [T|T|T K|T P|T K V flag|T|T K]; cbn [op_table] in *;
    unfold step, error_of, result, after;
    [by rewrite Hprep|..];
    unfold getAllRows, getRowByKey, getStartsWith, setRowByKey,
      deleteAllRows, deleteRowByKey, bind;
    by rewrite Hg, Hget.
Qed.

(** In the [Connected] state a table that is not admitted is an
    unregistered one whose name the client refuses. *)
Lemma connected_not_admitted st T :
  connected st = true → admitted st T = false →
  ∃ c, conn (snd st) = Some c ∧ models (snd st) !! T = None
       ∧ refused c T (fst st) = true.
Proof.
  intros (c & Hc & Ho & _)%connected_inv. unfold admitted, refused.
  destruct (models (snd st) !! T); [done|]. intros Ha. exists c.
  by rewrite Ho, Ha.
Qed.

Lemma settled_admitted st st' T : settled st st' T → admitted st' T = true.
Proof.
  intros (_ & _ & _ & Hm & _). unfold admitted.
  by destruct (models (snd st') !! T).
Qed.

(** Every data operation keeps the driver [Connected] ... *)
Lemma step_connected st op :
  connected st = true → connected (step st op) = true.
Proof.
  intros Hst. destruct (admitted st (op_table op)) eqn:Hadm.
  - destruct op as [T|T|T K|T P|T K V flag|T|T K]; cbn [op_table] in Hadm;
      unfold step, after.
    + by apply prepare_connected.
    + by destruct (getAllRows_connected st T Hst Hadm)
        as (st' & -> & (? & _) & _).
    + by destruct (getRowByKey_connected st T Hst Hadm K)
        as (st' & -> & (? & _) & _).
    + by destruct (getStartsWith_connected st T Hst Hadm P)
        as (st' & -> & (? & _) & _).
    + by destruct (setRowByKey_connected st T Hst Hadm K V flag)
        as (st' & -> & (? & _) & _).
    + by destruct (deleteAllRows_connected st T Hst Hadm)
        as (st' & -> & (? & _) & _).
    + by destruct (deleteRowByKey_connected st T Hst Hadm K)
        as (st' & -> & (? & _) & _).
  - destruct (connected_not_admitted st _ Hst Hadm) as (c & Hc & Hm & Hr).
    destruct st as [w d].
    by destruct (step_refused w d op c Hc Hm Hr) as [-> _].
Qed.

(** ... so a driver that was constructed, connected once, and then only
    asked for data operations is [Connected] throughout. *)
Lemma session_connected url pluralizeP w ops :
  reachable w = true →
  connected (foldl step (after connect (new url pluralizeP w)) ops) = true.
Proof.
  intros Hr.
  assert (connected (after connect (new url pluralizeP w)) = true) as Hst.
  { apply connect_establishes; [done|]. by destruct pluralizeP. }
  revert Hst. generalize (after connect (new url pluralizeP w)) as st.
  induction ops as [|op ops IH]; intros st Hst; [done|].
  simpl. apply IH. by apply step_connected.
Qed.

(** *** Unique [ID]s are an invariant of the driver

    No method of the driver, run from any state, connected or not, makes
    two documents of one collection share an [ID]. *)

Lemma preserves_ret {A} P (a : A) : preserves P (ret a).
Proof. by intros st. Qed.

Lemma preserves_throw {A} P e : preserves P (throw (A:=A) e).
Proof. by intros st. Qed.

Lemma preserves_this {A} P (f : MongoDriver → A) : preserves P (this f).
Proof. by intros st. Qed.

Lemma preserves_assign P f : preserves P (assign f).
Proof. by intros st. Qed.

Lemma preserves_bind {A B} P (m : M A) (k : A → M B) :
  preserves P m → (∀ a, preserves P (k a)) → preserves P (bind m k).
Proof.
  intros Hm Hk st HP. specialize (Hm st HP). revert Hm.
  unfold after, bind. destruct (m st) as [[a|e] st']; [|done].
  intros HP'. by apply (Hk a st').
Qed.

Lemma preserves_swallow {A} P (m : M A) : preserves P m → preserves P (swallow m).
Proof. intros Hm st HP. by apply (Hm st). Qed.

Lemma preserves_call {A} P (f : World → Result A * World) :
  (∀ w, P w → P (snd (f w))) → preserves P (call f).
Proof.
  intros Hf [w d] HP. specialize (Hf w HP). revert Hf.
  unfold after, call. simpl. by destruct (f w).
Qed.

Lemma preserves_call_ {A} P (f : World → A * World) :
  (∀ w, P w → P (snd (f w))) → preserves P (call_ f).
Proof.
  intros Hf [w d] HP. specialize (Hf w HP). revert Hf.
  unfold after, call_. simpl. by destruct (f w).
Qed.

Ltac preserve :=
  repeat match goal with
    | |- preserves _ (ret _) => apply preserves_ret
    | |- preserves _ (throw _) => apply preserves_throw
    | |- preserves _ (this _) => apply preserves_this
    | |- preserves _ (assign _) => apply preserves_assign
    | |- preserves _ (swallow _) => apply preserves_swallow
    | |- preserves _ (bind _ _) => apply preserves_bind; [|intros ?]
    | |- preserves _ (match ?x with _ => _ end) => destruct x
    end.

Lemma connect_unique : preserves unique_store connect.
Proof.
  unfold connect. preserve.
  apply preserves_call. intros w. apply createConnection_unique.
Qed.

Lemma disconnect_unique : preserves unique_store disconnect.
Proof.
  unfold disconnect. preserve.
  apply preserves_call_. intros w. apply close_unique.
Qed.

Lemma checkConnection_unique : preserves unique_store checkConnection.
Proof. unfold checkConnection. preserve. Qed.

Lemma modelSchema_unique name : preserves unique_store (modelSchema name).
Proof.
  unfold modelSchema. preserve; [apply checkConnection_unique| |].
  - apply preserves_call. intros w Hu. unfold model.
    by destruct (refused _ _ _).
  - apply preserves_call. intros w. apply createIndex_unique.
Qed.

Lemma prepare_unique T : preserves unique_store (prepare T).
Proof.
  unfold prepare. preserve; [apply checkConnection_unique|].
  apply modelSchema_unique.
Qed.

Lemma getModel_unique T : preserves unique_store (getModel T).
Proof. unfold getModel. preserve. apply prepare_unique. Qed.

Lemma step_unique st op :
  unique_store (fst st) → unique_store (fst (step st op)).
Proof.
  destruct op as [T|T|T K|T P|T K V flag|T|T K]; unfold step;
    [apply prepare_unique|..];
    unfold getAllRows, getRowByKey, getStartsWith, setRowByKey,
      deleteAllRows, deleteRowByKey;
    apply preserves_bind; try apply checkConnection_unique; intros _;
    preserve; try apply getModel_unique; apply preserves_call; intros w.
  - apply find_unique.
  - apply findOne_unique.
  - apply find_unique.
  - apply findOneAndUpdate_unique.
  - apply deleteMany_unique.
  - apply deleteMany_unique.
Qed.

Lemma session_unique st ops :
  unique_store (fst st) → unique_store (fst (foldl step st ops)).
Proof.
  revert st. induction ops as [|op ops IH]; intros st Hu; [done|].
  simpl. by apply IH, step_unique.
Qed.

End DriverFacts.

(** ** Properties of the driver *)

Module Properties.
Import Store Driver Lifecycle Samples StoreFacts DriverFacts.

Ltac run H := unfold result, after; rewrite H; cbn [fst snd].

(** C3, as stated, fails for a table name the client refuses: on a
    connected driver both calls throw in [conn.model]. *)
Lemma refused_table_write_then_read_throws :
  connected online = true
  ∧ result (setRowByKey "" "k" (VNum 1) false) online
    = Err MongoInvalidArgumentError
  ∧ result (getRowByKey "" "k")
      (after (setRowByKey "" "k" (VNum 1) false) online)
    = Err MongoInvalidArgumentError.
Proof. vm_compute. repeat split; reflexivity. Qed.

(** C3, amended. In the Connected state, for a table name the client
    accepts, [getRowByKey(T, K)] right after [setRowByKey(T, K, V, flag)]
    returns [(V, true)], whatever the flag. *)
Theorem getRowByKey_after_setRowByKey st T K V flag :
  connected st = true →
  accepted st T = true →
  result (getRowByKey T K) (after (setRowByKey T K V flag) st)
  = Ok (V, true).
Proof.
  intros Hst Hadm%admitted_accepted.
  destruct (setRowByKey_connected st T Hst Hadm K V flag)
    as (st1 & Hset & Hs & Ht).
  destruct (getRowByKey_connected st1 T (proj1 Hs) (settled_admitted _ _ _ Hs) K)
    as (st2 & Hget & _).
  unfold after at 1. rewrite Hset. cbn [fst snd]. run Hget.
  rewrite Ht, <- find_withID.
  destruct (find_upsert K V (clock (fst st)) (table st T)) as (doc & -> & _ & ->).
  done.
Qed.

Lemma getRowByKey_after_setRowByKey_witness :
  connected online = true
  ∧ accepted online "cache" = true
  ∧ result (getRowByKey "cache" "session:42")
      (after (setRowByKey "cache" "session:42" (VObj [("uid", VNum 7)]) false)
         online)
    = Ok (VObj [("uid", VNum 7)], true).
Proof.
  split; [vm_compute; reflexivity|]. split; [vm_compute; reflexivity|].
  apply (getRowByKey_after_setRowByKey online); vm_compute; reflexivity.
Defined.

(** C10, as stated, fails for a table name the client refuses: on a
    connected driver [setRowByKey] throws in [conn.model] and returns
    nothing, for either flag. *)
Lemma refused_table_write_returns_nothing :
  connected online = true
  ∧ result (setRowByKey "$x" "k" (VNum 1) false) online
    = Err MongoInvalidArgumentError
  ∧ result (setRowByKey "$x" "k" (VNum 1) true) online
    = Err MongoInvalidArgumentError.
Proof. vm_compute. repeat split; reflexivity. Qed.

(** C10, amended. In the Connected state, for a table name the client
    accepts, [setRowByKey(T, K, V, flag)] returns the very [V] it was
    given, for every prior content of the store; the flag is never read,
    so the whole run is the same for both flags. *)
Theorem setRowByKey_returns_its_argument st T K V flag :
  connected st = true →
  accepted st T = true →
  result (setRowByKey T K V flag) st = Ok V
  ∧ setRowByKey T K V flag st = setRowByKey T K V (negb flag) st.
Proof.
  intros Hst Hadm%admitted_accepted.
  destruct (setRowByKey_connected st T Hst Hadm K V flag) as (st1 & Hset & _).
  split; [by run Hset|done].
Qed.

Lemma setRowByKey_returns_its_argument_witness :
  connected online = true
  ∧ accepted online "cache" = true
  ∧ result (setRowByKey "cache" "session:42" (VNum 7) true) online
    = Ok (VNum 7)
  ∧ setRowByKey "cache" "session:42" (VNum 7) true online
    = setRowByKey "cache" "session:42" (VNum 7) (negb true) online.
Proof.
  split; [vm_compute; reflexivity|]. split; [vm_compute; reflexivity|].
  apply (setRowByKey_returns_its_argument online); vm_compute; reflexivity.
Defined.

(** C4, as stated, fails for a table name the client refuses: on a
    connected driver both writes throw in [conn.model], and the table
    holds no document with [ID = K]. *)
Lemma refused_table_holds_no_document :
  connected online = true
  ∧ result (setRowByKey "$x" "k" (VNum 1) false) online
    = Err MongoInvalidArgumentError
  ∧ result (setRowByKey "$x" "k" (VNum 2) false)
      (after (setRowByKey "$x" "k" (VNum 1) false) online)
    = Err MongoInvalidArgumentError
  ∧ withID "k"
      (table (after (setRowByKey "$x" "k" (VNum 2) false)
                (after (setRowByKey "$x" "k" (VNum 1) false) online)) "$x")
    = [].
Proof. vm_compute. repeat split; reflexivity. Qed.

(** C4, amended. In the Connected state, for a table name the client
    accepts, on a table whose [ID]s are unique,
    [setRowByKey(T, K, V1, flag)] followed by
    [setRowByKey(T, K, V2, flag)] leaves exactly one document with
    [ID = K], holding [V2]; the second write adds no document, and the
    [ID]s stay unique. *)
Theorem setRowByKey_twice_one_document st T K V1 V2 flag :
  connected st = true →
  accepted st T = true →
  uniqueIDs (table st T) →
  let st1 := after (setRowByKey T K V1 flag) st in
  let st2 := after (setRowByKey T K V2 flag) st1 in
  (∃ doc, withID K (table st2 T) = [doc] ∧ ID doc = K ∧ data doc = V2)
  ∧ map ID (table st2 T) = map ID (table st1 T)
  ∧ uniqueIDs (table st2 T).
Proof.
  intros Hst Hadm%admitted_accepted Hu st1 st2. subst st1 st2.
  destruct (setRowByKey_connected st T Hst Hadm K V1 flag)
    as (st1 & Hset1 & Hs1 & Ht1).
  destruct (setRowByKey_connected st1 T (proj1 Hs1)
              (settled_admitted _ _ _ Hs1) K V2 flag)
    as (st2 & Hset2 & Hs2 & Ht2).
  unfold after. rewrite Hset1. cbn [fst snd]. rewrite Hset2. cbn [fst snd].
  assert (uniqueIDs (table st1 T)) as Hu1
    by (rewrite Ht1; by apply uniqueIDs_upsert).
  rewrite Ht2. split; [by apply withID_upsert|].
  split; [|by apply uniqueIDs_upsert].
  rewrite ID_upsert, bool_decide_eq_true_2; [done|].
  destruct (find_upsert K V1 (clock (fst st)) (table st T)) as (doc & Hf & HI & _).
  rewrite Ht1. apply list_elem_of_fmap. exists doc. split; [done|].
  apply list_elem_of_In. by apply List.find_some in Hf as [? _].
Qed.

Lemma setRowByKey_twice_one_document_witness :
  connected online = true
  ∧ accepted online "cache" = true
  ∧ uniqueIDs (table online "cache")
  ∧ let st1 := after (setRowByKey "cache" "k" (VNum 1) false) online in
    let st2 := after (setRowByKey "cache" "k" (VNum 2) false) st1 in
    (∃ doc, withID "k" (table st2 "cache") = [doc]
            ∧ ID doc = "k" ∧ data doc = VNum 2)
    ∧ map ID (table st2 "cache") = map ID (table st1 "cache")
    ∧ uniqueIDs (table st2 "cache").
Proof.
  split; [vm_compute; reflexivity|]. split; [vm_compute; reflexivity|].
  split; [apply NoDup_nil_2|].
  apply (setRowByKey_twice_one_document online);
    [vm_compute; reflexivity|vm_compute; reflexivity|apply NoDup_nil_2].
Defined.

(** C5, as stated, fails for a table name the client refuses: on a
    connected driver [deleteRowByKey] returns no count but throws in
    [conn.model], also when no entry with the key exists. *)
Lemma refused_table_delete_by_key_throws :
  connected online = true
  ∧ withID "k" (table online "") = []
  ∧ result (deleteRowByKey "" "k") online = Err MongoInvalidArgumentError
  ∧ result (deleteRowByKey "" "k")
      (after (setRowByKey "" "k" (VNum 1) false) online)
    = Err MongoInvalidArgumentError.
Proof. vm_compute. repeat split; reflexivity. Qed.

(** C5, amended. In the Connected state, for a table name the client
    accepts, on a table whose [ID]s are unique,
    [deleteRowByKey(T, K)] returns 0 or 1; right after
    [setRowByKey(T, K, V, flag)] it returns 1, and [getRowByKey(T, K)]
    then returns [(null, false)]; when no document has [ID = K] it
    returns 0, without failing. *)
Theorem deleteRowByKey_count st T K :
  connected st = true →
  accepted st T = true →
  uniqueIDs (table st T) →
  (∃ n, result (deleteRowByKey T K) st = Ok n ∧ (n = 0 ∨ n = 1)%nat)
  ∧ (∀ V flag,
       let st1 := after (setRowByKey T K V flag) st in
       result (deleteRowByKey T K) st1 = Ok 1%nat
       ∧ result (getRowByKey T K) (after (deleteRowByKey T K) st1)
         = Ok (VNull, false))
  ∧ (withID K (table st T) = [] →
     result (deleteRowByKey T K) st = Ok 0%nat).
Proof.
  intros Hst Hadm%admitted_accepted Hu.
  destruct (deleteRowByKey_connected st T Hst Hadm K) as (st' & Hdel & _).
  split; [|split].
  - eexists. split; [by run Hdel|].
    pose proof (withID_length K _ Hu). lia.
  - intros V flag st1. subst st1.
    destruct (setRowByKey_connected st T Hst Hadm K V flag)
      as (st1 & Hset & Hs1 & Ht1).
    destruct (deleteRowByKey_connected st1 T (proj1 Hs1)
                (settled_admitted _ _ _ Hs1) K)
      as (st2 & Hdel2 & Hs2 & Ht2).
    destruct (getRowByKey_connected st2 T (proj1 Hs2)
                (settled_admitted _ _ _ Hs2) K) as (st3 & Hget & _).
    unfold after at 1 3. rewrite Hset. cbn [fst snd]. split.
    + run Hdel2. rewrite Ht1.
      by destruct (withID_upsert K V (clock (fst st)) _ Hu) as (doc & -> & _).
    + unfold after. rewrite Hdel2. cbn [fst snd]. run Hget.
      by rewrite Ht2, withID_deleted.
  - intros Hnone. run Hdel. by rewrite Hnone.
Qed.

Lemma deleteRowByKey_count_witness :
  connected online = true
  ∧ accepted online "cache" = true
  ∧ uniqueIDs (table online "cache")
  ∧ (∃ n, result (deleteRowByKey "cache" "k") online = Ok n
          ∧ (n = 0 ∨ n = 1)%nat)
  ∧ (∀ V flag,
       let st1 := after (setRowByKey "cache" "k" V flag) online in
       result (deleteRowByKey "cache" "k") st1 = Ok 1%nat
       ∧ result (getRowByKey "cache" "k")
           (after (deleteRowByKey "cache" "k") st1)
         = Ok (VNull, false))
  ∧ (withID "k" (table online "cache") = [] →
     result (deleteRowByKey "cache" "k") online = Ok 0%nat).
Proof.
  split; [vm_compute; reflexivity|]. split; [vm_compute; reflexivity|].
  split; [apply NoDup_nil_2|].
  apply (deleteRowByKey_count online);
    [vm_compute; reflexivity|vm_compute; reflexivity|apply NoDup_nil_2].
Defined.

(** C6, as stated, fails for a table name the client refuses: on a
    connected driver [deleteAllRows] of such a table, which is absent,
    does not return 0 but throws in [conn.model]. *)
Lemma refused_table_delete_all_throws :
  connected online = true
  ∧ collections (fst online) !! collectionOf online "" = None
  ∧ result (deleteAllRows "") online = Err MongoInvalidArgumentError.
Proof. vm_compute. repeat split; reflexivity. Qed.

(** C6, amended. In the Connected state, for a table name the client
    accepts, [deleteAllRows(T)] on a table of N documents returns N, and
    [getAllRows(T)] then returns the empty sequence; on a table that does
    not exist or is empty it returns 0. *)
Theorem deleteAllRows_count st T :
  connected st = true →
  accepted st T = true →
  result (deleteAllRows T) st = Ok (length (table st T))
  ∧ result (getAllRows T) (after (deleteAllRows T) st) = Ok []
  ∧ (collections (fst st) !! collectionOf st T = None
     ∨ collections (fst st) !! collectionOf st T = Some [] →
     result (deleteAllRows T) st = Ok 0%nat).
Proof.
  intros Hst Hadm%admitted_accepted.
  destruct (deleteAllRows_connected st T Hst Hadm) as (st1 & Hdel & Hs & Ht).
  destruct (getAllRows_connected st1 T (proj1 Hs) (settled_admitted _ _ _ Hs))
    as (st2 & Hget & _).
  split; [by run Hdel|]. split.
  - unfold after. rewrite Hdel. cbn [fst snd]. run Hget. by rewrite Ht.
  - intros Habs. run Hdel. unfold table, docs_of.
    by destruct Habs as [-> | ->].
Qed.

Lemma deleteAllRows_count_witness :
  connected two_rows = true
  ∧ accepted two_rows "cache" = true
  ∧ result (deleteAllRows "cache") two_rows = Ok 2%nat
  ∧ result (getAllRows "cache") (after (deleteAllRows "cache") two_rows)
    = Ok [].
Proof.
  split; [vm_compute; reflexivity|]. split; [vm_compute; reflexivity|].
  pose proof (deleteAllRows_count two_rows "cache" eq_refl eq_refl)
    as (H1 & H2 & _).
  split; [exact H1|exact H2].
Defined.

(** C7, as stated, fails for a table name the client refuses: on a
    connected driver [getRowByKey] of a key that does not exist does not
    return [(null, false)] but throws in [conn.model]. *)
Lemma refused_table_read_throws :
  connected online = true
  ∧ withID "k" (table online "$x") = []
  ∧ result (getRowByKey "$x" "k") online = Err MongoInvalidArgumentError.
Proof. vm_compute. repeat split; reflexivity. Qed.

(** C7, amended. In the Connected state, for a table name the client
    accepts, [getRowByKey(T, K)] never fails; it
    returns [(null, false)] exactly when no document of [T] has [ID = K];
    when one has, it returns that document's [data] with [true]; so
    [(null, true)] comes back only for a stored null. *)
Theorem getRowByKey_found_flag st T K :
  connected st = true →
  accepted st T = true →
  (∃ r, result (getRowByKey T K) st = Ok r)
  ∧ (result (getRowByKey T K) st = Ok (VNull, false)
     ↔ withID K (table st T) = [])
  ∧ (∀ doc, head (withID K (table st T)) = Some doc →
            result (getRowByKey T K) st = Ok (data doc, true))
  ∧ (result (getRowByKey T K) st = Ok (VNull, true) →
     ∃ doc, head (withID K (table st T)) = Some doc ∧ data doc = VNull).
Proof.
  intros Hst Hadm%admitted_accepted.
  destruct (getRowByKey_connected st T Hst Hadm K) as (st1 & Hget & _).
  unfold result. rewrite Hget. cbn [fst].
  destruct (withID K (table st T)) as [|doc rest]; cbn [head].
  - split; [by eexists|]. split; [done|]. split; [done|]. intros [=].
  - split; [by eexists|]. split; [split; intros [=]|].
    split; [by intros ? [= <-]|]. intros [= Hnull]. by exists doc.
Qed.

Lemma getRowByKey_found_flag_witness :
  connected null_row = true
  ∧ accepted null_row "cache" = true
  ∧ result (getRowByKey "cache" "a") null_row = Ok (VNull, true)
  ∧ result (getRowByKey "cache" "b") null_row = Ok (VNull, false).
Proof.
  split; [vm_compute; reflexivity|]. split; [vm_compute; reflexivity|].
  pose proof (getRowByKey_found_flag null_row "cache" "a" eq_refl eq_refl)
    as (_ & _ & Ha & _).
  pose proof (getRowByKey_found_flag null_row "cache" "b" eq_refl eq_refl)
    as (_ & Hb & _).
  split; [by apply (Ha (mkDoc "a" VNull 0 0 None))|by apply Hb].
Defined.

(** C1, as stated, fails after [disconnect()]: [this.conn] stays set, the
    guard passes, [prepare] returns normally and [getAllRows] goes on to
    the store, where the closed connection rejects the command. *)
Lemma guard_passes_after_disconnect :
  conn (snd offline) = Some 0%nat
  ∧ is_open (fst offline) 0%nat = false
  ∧ result (prepare "cache") offline = Ok tt
  ∧ result (getAllRows "cache") offline = Err BackendQueryError
  ∧ calls (fst (after (getAllRows "cache") offline))
    = CallFind 0%nat "cache" None :: CallCreateIndex 0%nat "cache"
        :: calls (fst offline).
Proof. vm_compute. repeat split; reflexivity. Qed.

(** C1, amended. While [this.conn] is unset (a driver just constructed, or
    one whose [connect()] never succeeded, whether or not [disconnect()]
    was called, which is then a no-op), every data operation fails with
    [NotConnectedError] and leaves the store, its log of calls included,
    and the driver exactly as they were. *)
Theorem unset_connection_fails_fast st T K P V flag :
  conn (snd st) = None →
  disconnect st = (Ok tt, st)
  ∧ prepare T st = (Err NotConnectedError, st)
  ∧ getAllRows T st = (Err NotConnectedError, st)
  ∧ getRowByKey T K st = (Err NotConnectedError, st)
  ∧ getStartsWith T P st = (Err NotConnectedError, st)
  ∧ setRowByKey T K V flag st = (Err NotConnectedError, st)
  ∧ deleteAllRows T st = (Err NotConnectedError, st)
  ∧ deleteRowByKey T K st = (Err NotConnectedError, st).
Proof.
  intros Hc. pose proof (checkConnection_unset st Hc) as Hg.
  split; [unfold disconnect, bind, this; by rewrite Hc|].
  unfold prepare, getAllRows, getRowByKey, getStartsWith, setRowByKey,
    deleteAllRows, deleteRowByKey, bind.
  by rewrite Hg.
Qed.

Lemma unset_connection_fails_fast_witness :
  conn (snd fresh) = None
  ∧ disconnect fresh = (Ok tt, fresh)
  ∧ prepare "cache" fresh = (Err NotConnectedError, fresh)
  ∧ getAllRows "cache" fresh = (Err NotConnectedError, fresh)
  ∧ getRowByKey "cache" "k" fresh = (Err NotConnectedError, fresh)
  ∧ getStartsWith "cache" "k" fresh = (Err NotConnectedError, fresh)
  ∧ setRowByKey "cache" "k" VNull false fresh = (Err NotConnectedError, fresh)
  ∧ deleteAllRows "cache" fresh = (Err NotConnectedError, fresh)
  ∧ deleteRowByKey "cache" "k" fresh = (Err NotConnectedError, fresh).
Proof.
  split; [reflexivity|].
  apply (unset_connection_fails_fast fresh "cache" "k" "k" VNull false).
  reflexivity.
Defined.

(** C2. The filter of [getStartsWith] is the string [/^query/], compared
    for equality with [ID]: with keys user:1, user:2 and group:1 stored,
    [getStartsWith(T, "user:")] returns nothing; and the one key it does
    return, were it stored, does not start with the prefix. *)
Lemma getStartsWith_compares_whole_key :
  connected users = true
  ∧ result (getAllRows "t") users
    = Ok [mkRow "user:1" (VNum 1); mkRow "user:2" (VNum 2);
          mkRow "group:1" (VNum 3)]
  ∧ result (getStartsWith "t" "user:") users = Ok []
  ∧ result (getStartsWith "t" "user:")
      (after (setRowByKey "t" "/^user:/" (VNum 4) false) users)
    = Ok [mkRow "/^user:/" (VNum 4)]
  ∧ String.prefix "user:" "/^user:/" = false.
Proof. vm_compute. repeat split; reflexivity. Qed.

(** C9, as stated, fails: after connect, prepare, disconnect and connect
    again, the table is still served by the handle made on the first
    connection, which is closed. *)
Lemma reconnect_keeps_stale_handle :
  conn (snd reconnected) = Some 1%nat
  ∧ is_open (fst reconnected) 1%nat = true
  ∧ getModel "cache" reconnected
    = (Ok (Some (mkModel "cache" "cache" 0%nat)), reconnected)
  ∧ is_open (fst reconnected) 0%nat = false
  ∧ result (getAllRows "cache") reconnected = Err BackendQueryError.
Proof. vm_compute. repeat split; reflexivity. Qed.

(** C9, amended. [disconnect()] and [connect()] leave [this.models] as it
    is: after a successful reconnect a table registered before is still
    served by the handle registered before, and only a table not yet
    registered, with a name the client accepts, gets a handle bound to the
    new connection. *)
Theorem registry_survives_reconnect st T m :
  models (snd st) !! T = Some m →
  succeeds (disconnect ;; connect) st = true →
  let st' := after (disconnect ;; connect) st in
  models (snd st') = models (snd st)
  ∧ getModel T st' = (Ok (Some m), st')
  ∧ ∀ T', models (snd st) !! T' = None →
          accepts (fst st') (toCollectionName (fst st') T') = true →
          ∃ c m', conn (snd st') = Some c ∧ is_open (fst st') c = true
                  ∧ result (getModel T') st' = Ok (Some m') ∧ db m' = c.
Proof.
  intros Hm Hok st'. subst st'. revert Hok.
  destruct st as [w d]. simpl in Hm.
  destruct (disconnect_run w d) as [w1 Hdis].
  unfold succeeds, result, after, bind. rewrite Hdis, connect_run.
  destruct (createConnection (url d) w1) as [[c|e] w2] eqn:Hcc; [|done].
  intros _. cbn [fst snd]. split; [done|]. split.
  - by apply (getModel_known _ _ c).
  - intros T' Hnone Hacc. exists c, (compiled c T' w2). split; [done|].
    assert (refused c T' w2 = false) as Hr
      by (unfold refused; by rewrite Hacc, andb_false_r).
    rewrite (getModel_fresh w2 (set_conn (Some c) d) T' c) by done.
    split; [|done]. by apply (createConnection_open (url d) w1).
Qed.

Lemma registry_survives_reconnect_witness :
  models (snd registered) !! "cache" = Some (mkModel "cache" "cache" 0%nat)
  ∧ succeeds (disconnect ;; connect) registered = true
  ∧ models (snd reconnected) = models (snd registered)
  ∧ getModel "cache" reconnected
    = (Ok (Some (mkModel "cache" "cache" 0%nat)), reconnected).
Proof.
  split; [reflexivity|]. split; [reflexivity|].
  pose proof (registry_survives_reconnect registered "cache"
                (mkModel "cache" "cache" 0%nat) eq_refl eq_refl)
    as (H1 & H2 & _).
  split; [exact H1|exact H2].
Defined.

(** C8, as stated, fails when the collection already has an index on
    [expireAt] with another offset: the driver's index request is
    rejected, the rejection is dropped, [prepare] returns normally, the
    index keeps its offset of one hour, and the sweep run after the
    [expireAt] instant leaves the entry, which both reads still return. *)
Lemma rejected_index_request_keeps_entry :
  connected hourly = true
  ∧ succeeds (connect ;; prepare "cache")
      (new "mongodb://localhost/quickdb" false hourly_world) = true
  ∧ ttl_index (fst hourly) !! "cache" = Some 3600
  ∧ table hourly "cache" = [mkDoc "session:42" (VNum 7) 0 0 (Some 500)]
  ∧ (500 < clock (fst hourly))%Z
  ∧ result (getRowByKey "cache" "session:42")
      (expiry_sweep (fst hourly), snd hourly) = Ok (VNum 7, true)
  ∧ result (getAllRows "cache") (expiry_sweep (fst hourly), snd hourly)
    = Ok [mkRow "session:42" (VNum 7)].
Proof. vm_compute. repeat split; reflexivity. Qed.

(** C8, amended. When the handle of a table (with a name the client
    accepts) is created in the Connected state and no index on
    [expireAt] with another offset stands in the way, the driver
    registers an expiring index on [expireAt] with offset 0.  From then
    on, in any state of the store that still has that index, take a key
    all of whose documents carry an [expireAt] before the current time:
    the driver's own reads remove nothing, so until the store sweeps,
    [getRowByKey] still finds the key; once the store's expiry sweep has
    run, [getRowByKey] answers [(null, false)] and [getAllRows] lists no
    row with that id. *)
Theorem expired_rows_gone_after_sweep st T :
  connected st = true →
  accepted st T = true →
  models (snd st) !! T = None →
  (ttl_index (fst st) !! collectionOf st T = None
   ∨ ttl_index (fst st) !! collectionOf st T = Some 0%Z) →
  let st1 := after (prepare T) st in
  result (prepare T) st = Ok tt
  ∧ ttl_index (fst st1) !! collectionOf st1 T = Some 0%Z
  ∧ ∀ w K,
      ttl_index w !! collectionOf st1 T = Some 0%Z →
      open_conns w = open_conns (fst st1) →
      (∀ doc, doc ∈ withID K (table (w, snd st1) T) →
              ∃ t, expireAt doc = Some t ∧ (t < clock w)%Z) →
      (withID K (table (w, snd st1) T) ≠ [] →
       ∃ v, result (getRowByKey T K) (w, snd st1) = Ok (v, true))
      ∧ table (after (getRowByKey T K) (w, snd st1)) T = table (w, snd st1) T
      ∧ table (after (getAllRows T) (w, snd st1)) T = table (w, snd st1) T
      ∧ result (getRowByKey T K) (expiry_sweep w, snd st1) = Ok (VNull, false)
      ∧ ∃ rows, result (getAllRows T) (expiry_sweep w, snd st1) = Ok rows
                ∧ K ∉ map id rows.
Proof.
  intros Hst Hacc Hnew Hidx st1. subst st1.
  destruct (connected_inv st Hst) as (c & Hc & Ho & Hm).
  destruct st as [w0 d]. cbn [fst snd] in *.
  assert (refused c T w0 = false) as Hr.
  { revert Hacc. unfold accepted, collectionOf, refused. cbn [fst snd].
    rewrite Hnew. intros ->. by rewrite andb_false_r. }
  unfold result, after. rewrite (prepare_fresh w0 d T c Hc Hnew Hr).
  cbn [fst snd].
  set (m := compiled c T w0). set (w1 := snd (createIndex m 0 w0)).
  set (d1 := set_models (<[T := m]> (models d)) d).
  assert (models d1 !! T = Some m) as Hreg by apply lookup_insert_eq.
  assert (∀ w, collectionOf (w, d1) T = collectionName m) as Hcoll.
  { intros w. unfold collectionOf; simpl. by rewrite lookup_insert_eq. }
  assert (collectionName m = collectionOf (w0, d) T) as Hcoll0.
  { unfold collectionOf; simpl. by rewrite Hnew. }
  assert (∀ w, admitted (w, d1) T = true) as Hadm.
  { intros w. unfold admitted. cbn [snd]. by rewrite Hreg. }
  split; [done|]. split.
  { rewrite Hcoll. apply createIndex_registers; [done|]. by rewrite Hcoll0. }
  intros w K Httl Hopen Hexp. rewrite Hcoll in Httl.
  assert (open_conns w = open_conns w0) as Hopen0.
  { rewrite Hopen. apply (createIndex_same_data m 0 w0). }
  assert (∀ w', open_conns w' = open_conns w → connected (w', d1) = true)
    as Hlive.
  { intros w' Hw'. apply (connected_intro _ c); simpl; [done| |].
    - unfold is_open in *. by rewrite Hw', Hopen0.
    - by apply map_Forall_insert_2. }
  destruct (getRowByKey_connected (w, d1) T (Hlive w eq_refl) (Hadm w) K)
    as (sa & Hga & _ & Hta).
  destruct (getAllRows_connected (w, d1) T (Hlive w eq_refl) (Hadm w))
    as (sb & Hgb & _ & Htb).
  destruct (getRowByKey_connected (expiry_sweep w, d1) T
              (Hlive (expiry_sweep w) eq_refl) (Hadm _) K) as (sc & Hgc & _).
  destruct (getAllRows_connected (expiry_sweep w, d1) T
              (Hlive (expiry_sweep w) eq_refl) (Hadm _)) as (sd & Hgd & _).
  assert (withID K (table (expiry_sweep w, d1) T) = []) as Hgone.
  { unfold table. cbn [fst]. rewrite Hcoll, docs_of_sweep, Httl.
    apply withID_swept. intros doc Hdoc. apply Hexp.
    unfold table. cbn [fst]. by rewrite Hcoll. }
  rewrite Hga, Hgb, Hgc, Hgd. cbn [fst snd]. rewrite Hgone. cbn [head].
  split; [|repeat split; try done].
  - intros Hsome. destruct (withID K (table (w, d1) T)); [done|by eexists].
  - eexists. split; [done|]. rewrite map_map. apply withID_nil_iff in Hgone.
    exact Hgone.
Qed.

Lemma expired_rows_gone_after_sweep_witness :
  connected online = true
  ∧ accepted online "cache" = true
  ∧ models (snd online) !! "cache" = None
  ∧ ttl_index (fst (after (prepare "cache") online)) !! "cache" = Some 0%Z
  ∧ result (getRowByKey "cache" "session:42")
      (expiry_sweep stale_world, snd (after (prepare "cache") online))
    = Ok (VNull, false)
  ∧ result (getAllRows "cache")
      (expiry_sweep stale_world, snd (after (prepare "cache") online))
    = Ok [].
Proof.
  split; [vm_compute; reflexivity|]. split; [vm_compute; reflexivity|].
  split; [reflexivity|].
  pose proof (expired_rows_gone_after_sweep online "cache"
                eq_refl eq_refl eq_refl (or_introl eq_refl))
    as (_ & Hidx & Hsweep).
  split; [exact Hidx|].
  destruct (Hsweep stale_world "session:42") as (_ & _ & _ & Hget & _).
  - reflexivity.
  - reflexivity.
  - intros doc Hdoc. exists 500%Z.
    apply list_elem_of_singleton in Hdoc as ->. split; reflexivity.
  - split; [exact Hget|reflexivity].
Defined.

End Properties.

(** ** Every data operation, in every state *)

Module StepFacts.
Import Store Driver Lifecycle Contract StoreFacts DriverFacts.

(** While [this.conn] is unset an operation changes nothing. *)
Lemma step_unset st op : conn (snd st) = None → step st op = st.
Proof.
  intros Hc. pose proof (checkConnection_unset st Hc) as Hg.
  destruct op; unfold step, after, prepare, getAllRows, getRowByKey,
    getStartsWith, setRowByKey, deleteAllRows, deleteRowByKey, bind;
    by rewrite Hg.
Qed.

(** On a registered table an operation sends its one command through the
    registered handle. *)
Lemma step_known w d op c m :
  conn d = Some c → models d !! op_table op = Some m →
  step (w, d) op = (command op m w, d).
Proof.
  intros Hc Hm.
  pose proof (checkConnection_set (w, d) c Hc) as Hg.
  pose proof (getModel_known (w, d) (op_table op) c m Hc Hm) as Hget.
  destruct op as [T|T|T K|T P|T K V flag|T|T K]; cbn [op_table] in *;
    unfold step, after, command.
  - revert Hget. unfold getModel, bind, this.
    destruct (prepare T (w, d)) as [[[]|e] st1]; [|done]. by intros [= _ ->].
  - unfold getAllRows, bind. rewrite Hg, Hget. unfold call. cbn [fst snd].
    by destruct (find m None w) as [[rows|e] w'].
  - unfold getRowByKey, bind. rewrite Hg, Hget. unfold call. cbn [fst snd].
    by destruct (findOne m (Some K) w) as [[res|e] w'].
  - unfold getStartsWith, bind. rewrite Hg, Hget. unfold call. cbn [fst snd].
    by destruct (find m (Some (startsWithPattern P)) w) as [[rows|e] w'].
  - unfold setRowByKey, bind. rewrite Hg, Hget. unfold call. cbn [fst snd].
    by destruct (findOneAndUpdate m K V w) as [[res|e] w'].
  - unfold deleteAllRows, bind. rewrite Hg, Hget. unfold call. cbn [fst snd].
    by destruct (deleteMany m None w) as [[n|e] w'].
  - unfold deleteRowByKey, bind. rewrite Hg, Hget. unfold call. cbn [fst snd].
    by destruct (deleteMany m (Some K) w) as [[n|e] w'].
Qed.

Lemma prepare_known w d T c m :
  conn d = Some c → models d !! T = Some m →
  prepare T (w, d) = (Ok tt, (w, d)).
Proof.
  intros Hc Hm. unfold prepare, bind.
  rewrite (checkConnection_set (w, d) c Hc). unfold this. cbn [fst snd].
  by rewrite Hm.
Qed.

Lemma error_known w d op c m :
  conn d = Some c → models d !! op_table op = Some m →
  error_of (w, d) op = command_error op m w.
Proof.
  intros Hc Hm.
  pose proof (checkConnection_set (w, d) c Hc) as Hg.
  pose proof (getModel_known (w, d) (op_table op) c m Hc Hm) as Hget.
  destruct op as [T|T|T K|T P|T K V flag|T|T K]; cbn [op_table] in *;
    unfold error_of, result, command_error.
  - by rewrite (prepare_known w d T c m).
  - unfold getAllRows, bind. rewrite Hg, Hget. unfold call. cbn [fst snd].
    by destruct (find m None w) as [[rows|e] w'].
  - unfold getRowByKey, bind. rewrite Hg, Hget. unfold call. cbn [fst snd].
    by destruct (findOne m (Some K) w) as [[res|e] w'].
  - unfold getStartsWith, bind. rewrite Hg, Hget. unfold call. cbn [fst snd].
    by destruct (find m (Some (startsWithPattern P)) w) as [[rows|e] w'].
  - unfold setRowByKey, bind. rewrite Hg, Hget. unfold call. cbn [fst snd].
    by destruct (findOneAndUpdate m K V w) as [[res|e] w'].
  - unfold deleteAllRows, bind. rewrite Hg, Hget. unfold call. cbn [fst snd].
    by destruct (deleteMany m None w) as [[n|e] w'].
  - unfold deleteRowByKey, bind. rewrite Hg, Hget. unfold call. cbn [fst snd].
    by destruct (deleteMany m (Some K) w) as [[n|e] w'].
Qed.

Lemma error_unset st op :
  conn (snd st) = None → error_of st op = Some NotConnectedError.
Proof.
  intros Hc. pose proof (checkConnection_unset st Hc) as Hg.
  destruct op; unfold error_of, result, prepare, getAllRows, getRowByKey,
    getStartsWith, setRowByKey, deleteAllRows, deleteRowByKey, bind;
    by rewrite Hg.
Qed.

(** On a table not yet registered, with a name the client does not
    refuse, an operation first registers a handle made on [this.conn],
    and then runs as on a registered table. *)
Lemma step_fresh w d op c :
  conn d = Some c → models d !! op_table op = None →
  refused c (op_table op) w = false →
  let m := compiled c (op_table op) w in
  let w1 := snd (createIndex m 0 w) in
  step (w, d) op
  = (command op m w1, set_models (<[op_table op := m]> (models d)) d)
  ∧ error_of (w, d) op = command_error op m w1.
Proof.
  intros Hc Hm Hr m w1.
  set (d1 := set_models (<[op_table op := m]> (models d)) d).
  set (st1 := (w1, d1)).
  pose proof (checkConnection_set (w, d) c Hc) as Hg.
  pose proof (getModel_fresh w d (op_table op) c Hc Hm Hr) as Hget.
  assert (conn (snd st1) = Some c) as Hc1 by done.
  assert (models (snd st1) !! op_table op = Some m) as Hm1
    by apply lookup_insert_eq.
  pose proof (checkConnection_set st1 c Hc1) as Hg1.
  pose proof (getModel_known st1 (op_table op) c m Hc1 Hm1) as Hget1.
  fold m in Hget. fold w1 in Hget. fold st1 in Hget.
  rewrite <- (step_known w1 d1 op c m Hc1 Hm1).
  rewrite <- (error_known w1 d1 op c m Hc1 Hm1). fold st1.
  destruct op as [T|T|T K|T P|T K V flag|T|T K]; cbn [op_table] in *;
    unfold step, error_of, result, after.
  - rewrite (prepare_fresh w d T c Hc Hm Hr). fold m. fold w1. fold d1.
    unfold st1. by rewrite (prepare_known w1 d1 T c m Hc1 Hm1).
  - unfold getAllRows, bind. by rewrite Hg, Hget, Hg1, Hget1.
  - unfold getRowByKey, bind. by rewrite Hg, Hget, Hg1, Hget1.
  - unfold getStartsWith, bind. by rewrite Hg, Hget, Hg1, Hget1.
  - unfold setRowByKey, bind. by rewrite Hg, Hget, Hg1, Hget1.
  - unfold deleteAllRows, bind. by rewrite Hg, Hget, Hg1, Hget1.
  - unfold deleteRowByKey, bind. by rewrite Hg, Hget, Hg1, Hget1.
Qed.

(** The four ways a data operation can go, in any state. *)
Lemma step_view w d op :
  (conn d = None ∧ step (w, d) op = (w, d)
   ∧ error_of (w, d) op = Some NotConnectedError)
  ∨ (∃ c m, conn d = Some c ∧ models d !! op_table op = Some m
            ∧ step (w, d) op = (command op m w, d)
            ∧ error_of (w, d) op = command_error op m w)
  ∨ (∃ c, conn d = Some c ∧ models d !! op_table op = None
          ∧ refused c (op_table op) w = false
          ∧ step (w, d) op
            = (command op (compiled c (op_table op) w)
                 (snd (createIndex (compiled c (op_table op) w) 0 w)),
               set_models
                 (<[op_table op := compiled c (op_table op) w]> (models d)) d)
          ∧ error_of (w, d) op
            = command_error op (compiled c (op_table op) w)
                (snd (createIndex (compiled c (op_table op) w) 0 w)))
  ∨ (∃ c, conn d = Some c ∧ models d !! op_table op = None
          ∧ refused c (op_table op) w = true
          ∧ step (w, d) op = (w, d)
          ∧ error_of (w, d) op = Some MongoInvalidArgumentError).
Proof.
  destruct (conn d) as [c|] eqn:Hc.
  - right. destruct (models d !! op_table op) as [m|] eqn:Hm.
    + left. exists c, m.
      by rewrite (step_known w d op c m), (error_known w d op c m).
    + right. destruct (refused c (op_table op) w) eqn:Hr.
      * right. exists c. by destruct (step_refused w d op c Hc Hm Hr).
      * left. exists c. by destruct (step_fresh w d op c Hc Hm Hr).
  - left. by rewrite (step_unset (w, d)), (error_unset (w, d)).
Qed.

(** *** What the one command of an operation touches *)

Lemma command_env op m w :
  pluralizer (command op m w) = pluralizer w
  ∧ clock (command op m w) = clock w
  ∧ open_conns (command op m w) = open_conns w
  ∧ ttl_index (command op m w) = ttl_index w
  ∧ accepts (command op m w) = accepts w.
Proof.
  destruct op; unfold command, find, findOne, findOneAndUpdate, deleteMany;
    cbn zeta; try done; by destruct (is_open _ _).
Qed.

Lemma command_frame op m w coll :
  coll ≠ collectionName m → docs_of (command op m w) coll = docs_of w coll.
Proof.
  intros Hne.
  destruct op; unfold command, find, findOne, findOneAndUpdate, deleteMany;
    cbn zeta; try done; destruct (is_open _ _); try done; cbn [snd].
  - rewrite docs_of_insert. by rewrite decide_False by done.
  - rewrite docs_of_alter by done. by rewrite decide_False by done.
  - rewrite docs_of_alter by done. by rewrite decide_False by done.
Qed.

Lemma command_reads op m w coll :
  reads op = true → docs_of (command op m w) coll = docs_of w coll.
Proof.
  destruct op; try done; intros _; unfold command, find, findOne;
    cbn zeta; try done; by destruct (is_open _ _).
Qed.

Lemma command_error_backend op m w e :
  command_error op m w = Some e → e = BackendQueryError.
Proof.
  destruct op; unfold command_error, find, findOne, findOneAndUpdate,
    deleteMany; cbn zeta; try done;
    destruct (is_open _ _); cbn; congruence.
Qed.

Lemma collectionOf_env w d w' d' T :
  pluralizer w' = pluralizer w → models d' !! T = models d !! T →
  collectionOf (w', d') T = collectionOf (w, d) T.
Proof.
  intros Hp Hm. unfold collectionOf, toCollectionName; simpl.
  by rewrite Hp, Hm.
Qed.

(** An operation keeps [this.conn] and every handle of the registry. *)
Lemma step_keeps st op T m :
  models (snd st) !! T = Some m →
  models (snd (step st op)) !! T = Some m
  ∧ conn (snd (step st op)) = conn (snd st).
Proof.
  intros Hm. destruct st as [w d]. cbn [snd] in *.
  destruct (step_view w d op)
    as [(Hc & -> & _)|[(c & m0 & Hc & Hm0 & -> & _)
       |[(c & Hc & Hm0 & Hr & -> & _)|(c & Hc & Hm0 & Hr & -> & _)]]];
    try done.
  cbn [snd]. unfold set_models. cbn [models conn].
  split; [|done]. rewrite lookup_insert_ne; [done|]. congruence.
Qed.

(** An operation keeps the collection of every table, and the client's
    check. *)
Lemma step_names st op T :
  collectionOf (step st op) T = collectionOf st T
  ∧ accepts (fst (step st op)) = accepts (fst st).
Proof.
  destruct st as [w d].
  destruct (step_view w d op)
    as [(Hc & -> & _)|[(c & m0 & Hc & Hm0 & -> & _)
       |[(c & Hc & Hm0 & Hr & -> & _)|(c & Hc & Hm0 & Hr & -> & _)]]];
    try done.
  - destruct (command_env op m0 w) as (Hp & _ & _ & _ & Ha).
    split; [|done]. by apply collectionOf_env.
  - set (m := compiled c (op_table op) w).
    destruct (command_env op m (snd (createIndex m 0 w)))
      as (Hp & _ & _ & _ & Ha).
    destruct (createIndex_same_data m 0 w) as (Hp1 & _ & _ & Ha1 & _).
    split; [|cbn [fst]; congruence].
    unfold collectionOf, toCollectionName. cbn [fst snd].
    unfold set_models. cbn [models]. rewrite Hp, Hp1.
    destruct (decide (T = op_table op)) as [->|Hne].
    + by rewrite lookup_insert_eq, Hm0.
    + by rewrite lookup_insert_ne.
Qed.

(** *** More on lists of documents and rows *)

Lemma withID_upsert_other K K' V now docs :
  K' ≠ K → withID K' (upsert K V now docs) = withID K' docs.
Proof.
  intros Hne. unfold withID. induction docs as [|d docs IH].
  - rewrite upsert_nil. simpl.
    by replace (String.eqb K K') with false
      by (symmetry; apply String.eqb_neq; congruence).
  - rewrite upsert_cons. destruct (String.eqb (ID d) K) eqn:E; simpl.
    + apply String.eqb_eq in E.
      by replace (String.eqb (ID d) K') with false
        by (symmetry; apply String.eqb_neq; congruence).
    + by rewrite IH.
Qed.

Lemma withID_deleted_other K K' docs :
  K' ≠ K →
  withID K' (List.filter (λ d, negb (matches (Some K) d)) docs)
  = withID K' docs.
Proof.
  intros Hne. unfold withID. induction docs as [|d docs IH]; [done|]. simpl.
  destruct (String.eqb (ID d) K) eqn:E; simpl.
  - apply String.eqb_eq in E.
    by replace (String.eqb (ID d) K') with false
      by (symmetry; apply String.eqb_neq; congruence).
  - destruct (String.eqb (ID d) K'); [f_equal|]; exact IH.
Qed.

Lemma toRow_withID K docs :
  map toRow (withID K docs) = rowsWithId K (map toRow docs).
Proof.
  unfold withID, rowsWithId. induction docs as [|d docs IH]; [done|]. simpl.
  destruct (String.eqb (ID d) K); simpl; by rewrite IH.
Qed.

Lemma toRow_deleted K docs :
  map toRow (List.filter (λ d, negb (matches (Some K) d)) docs)
  = rowsWithoutId K (map toRow docs).
Proof.
  unfold rowsWithoutId. induction docs as [|d docs IH]; [done|]. simpl.
  destruct (String.eqb (ID d) K); simpl; [exact IH|f_equal; exact IH].
Qed.

(** Of two writes to one key only the second shows in the rows. *)
Lemma toRow_upsert_twice K V1 V2 n1 n2 n3 docs :
  map toRow (upsert K V2 n2 (upsert K V1 n1 docs))
  = map toRow (upsert K V2 n3 docs).
Proof.
  induction docs as [|d docs IH].
  - rewrite !upsert_nil, upsert_cons. simpl. by rewrite String.eqb_refl.
  - rewrite !(upsert_cons _ _ _ d). destruct (String.eqb (ID d) K) eqn:E.
    + rewrite upsert_cons. simpl. by rewrite E.
    + rewrite upsert_cons, E. simpl. by rewrite IH.
Qed.

Lemma expireAt_upsert K V now docs :
  (∀ doc, doc ∈ docs → expireAt doc = None) →
  ∀ doc, doc ∈ upsert K V now docs → expireAt doc = None.
Proof.
  induction docs as [|d docs IH]; intros Hall doc.
  - rewrite upsert_nil. by intros ->%list_elem_of_singleton.
  - rewrite upsert_cons. destruct (String.eqb (ID d) K).
    + intros [->|Hin]%elem_of_cons.
      * simpl. apply Hall, list_elem_of_here.
      * by apply Hall, list_elem_of_further.
    + intros [->|Hin]%elem_of_cons.
      * apply Hall, list_elem_of_here.
      * apply IH; [|done]. intros doc' Hdoc'.
        by apply Hall, list_elem_of_further.
Qed.

(** The sweep keeps a document that has no [expireAt]. *)
Lemma unexpiring_kept now secs docs :
  (∀ doc, doc ∈ docs → expireAt doc = None) →
  List.filter (λ d, negb (expired now secs d)) docs = docs.
Proof.
  induction docs as [|d docs IH]; intros Hall; [done|]. simpl.
  unfold expired at 1. rewrite (Hall d) by apply list_elem_of_here. simpl.
  rewrite IH; [done|]. intros doc Hdoc. by apply Hall, list_elem_of_further.
Qed.

Lemma connect_keeps_docs u w coll :
  docs_of (snd (createConnection u w)) coll = docs_of w coll.
Proof. unfold createConnection. simpl. by destruct (reachable w). Qed.

Lemma error_connected st op :
  connected st = true → admitted st (op_table op) = true →
  error_of st op = None.
Proof.
  intros Hst Hadm.
  destruct op as [T|T|T K|T P|T K V flag|T|T K]; cbn [op_table] in Hadm;
    unfold error_of; [|unfold result..].
  - by destruct (prepare_connected st T Hst Hadm) as [-> _].
  - by destruct (getAllRows_connected st T Hst Hadm) as (st' & -> & _).
  - by destruct (getRowByKey_connected st T Hst Hadm K) as (st' & -> & _).
  - by destruct (getStartsWith_connected st T Hst Hadm P) as (st' & -> & _).
  - by destruct (setRowByKey_connected st T Hst Hadm K V flag)
      as (st' & -> & _).
  - by destruct (deleteAllRows_connected st T Hst Hadm) as (st' & -> & _).
  - by destruct (deleteRowByKey_connected st T Hst Hadm K) as (st' & -> & _).
Qed.

End StepFacts.

(** ** Further properties of the driver *)

Module Coverage.
Import Store Driver Lifecycle Samples Contract StoreFacts DriverFacts StepFacts.

(** X1. [prepare] is idempotent in every state: a second [prepare(T)]
    returns what the first returned and changes neither the store (no
    second index request) nor the driver (no second handle). *)
Theorem prepare_twice st T :
  after (prepare T) (after (prepare T) st) = after (prepare T) st
  ∧ result (prepare T) (after (prepare T) st) = result (prepare T) st.
Proof.
  destruct st as [w d]. unfold after, result.
  destruct (conn d) as [c|] eqn:Hc.
  - destruct (models d !! T) as [m|] eqn:Hm.
    + rewrite (prepare_known w d T c m Hc Hm). cbn [fst snd].
      by rewrite (prepare_known w d T c m Hc Hm).
    + destruct (refused c T w) eqn:Hr.
      * rewrite (prepare_refused w d T c Hc Hm Hr). cbn [fst snd].
        by rewrite (prepare_refused w d T c Hc Hm Hr).
      * rewrite (prepare_fresh w d T c Hc Hm Hr). cbn [fst snd].
        by erewrite prepare_known; [|done|apply lookup_insert_eq].
  - assert (prepare T (w, d) = (Err NotConnectedError, (w, d))) as Hp.
    { unfold prepare, bind. by rewrite (checkConnection_unset (w, d) Hc). }
    rewrite Hp. cbn [fst snd]. by rewrite Hp.
Qed.

(** X2. The registry only grows: through any sequence of data operations,
    from any state, a handle once registered for a table stays the handle
    of that table, and [this.conn] stays what it was. *)
Theorem registered_handle_kept st ops T m :
  models (snd st) !! T = Some m →
  models (snd (foldl step st ops)) !! T = Some m
  ∧ conn (snd (foldl step st ops)) = conn (snd st).
Proof.
  revert st. induction ops as [|op ops IH]; intros st Hm; [done|].
  simpl. destruct (step_keeps st op T m Hm) as [Hm' Hc'].
  destruct (IH (step st op) Hm') as [? ?]. split; [done|congruence].
Qed.

Lemma registered_handle_kept_witness :
  models (snd registered) !! "cache" = Some (mkModel "cache" "cache" 0%nat)
  ∧ models (snd (foldl step registered
                   [SetRowByKey "users" "u" VNull false; DeleteAllRows "cache";
                    Prepare "cache"])) !! "cache"
    = Some (mkModel "cache" "cache" 0%nat)
  ∧ conn (snd (foldl step registered
                 [SetRowByKey "users" "u" VNull false; DeleteAllRows "cache";
                  Prepare "cache"]))
    = conn (snd registered).
Proof.
  split; [reflexivity|].
  apply (registered_handle_kept registered). reflexivity.
Defined.

(** X3. Tables are separate: in every state, a data operation on one table
    leaves the documents of every table that lives in another collection
    exactly as they were. *)
Theorem other_tables_untouched st op T' :
  collectionOf st (op_table op) ≠ collectionOf st T' →
  table (step st op) T' = table st T'.
Proof.
  intros Hne. destruct st as [w d].
  destruct (step_view w d op)
    as [(Hc & -> & _)|[(c & m & Hc & Hm & -> & _)
       |[(c & Hc & Hm & Hr & -> & _)|(c & Hc & Hm & Hr & -> & _)]]];
    try done.
  - destruct (command_env op m w) as (Hp & _).
    unfold table. rewrite (collectionOf_env w d _ d T' Hp eq_refl). cbn [fst].
    apply command_frame. intros Heq. apply Hne. rewrite Heq.
    unfold collectionOf. cbn [snd]. by rewrite Hm.
  - assert (T' ≠ op_table op) as HT by (intros ->; done).
    set (m := compiled c (op_table op) w). set (w1 := snd (createIndex m 0 w)).
    destruct (command_env op m w1) as (Hp & _).
    destruct (createIndex_same_data m 0 w) as (Hp1 & _ & _ & _ & Hd1).
    fold w1 in Hp1, Hd1.
    unfold table.
    rewrite (collectionOf_env w d (command op m w1) _ T');
      [|congruence|by cbn; rewrite lookup_insert_ne].
    cbn [fst]. rewrite command_frame; [apply Hd1|].
    intros Heq. apply Hne. rewrite Heq.
    unfold collectionOf. cbn [snd fst]. by rewrite Hm.
Qed.

Lemma other_tables_untouched_witness :
  collectionOf two_tables (op_table (DeleteAllRows "cache"))
  ≠ collectionOf two_tables "users"
  ∧ table (step two_tables (DeleteAllRows "cache")) "users"
    = table two_tables "users".
Proof.
  assert (collectionOf two_tables (op_table (DeleteAllRows "cache"))
          ≠ collectionOf two_tables "users") as Hne by (vm_compute; congruence).
  split; [exact Hne|].
  apply (other_tables_untouched two_tables (DeleteAllRows "cache") "users" Hne).
Defined.

(** X6. Reading never writes: in every state, [prepare], [getAllRows],
    [getRowByKey] and [getStartsWith] leave the documents of every
    collection as they were. *)
Theorem reads_keep_documents st op coll :
  reads op = true →
  docs_of (fst (step st op)) coll = docs_of (fst st) coll.
Proof.
  intros Hrd. destruct st as [w d].
  destruct (step_view w d op)
    as [(Hc & -> & _)|[(c & m & Hc & Hm & -> & _)
       |[(c & Hc & Hm & Hr & -> & _)|(c & Hc & Hm & Hr & -> & _)]]];
    try done.
  - cbn [fst]. by apply command_reads.
  - cbn [fst]. rewrite command_reads by done. apply createIndex_same_data.
Qed.

Lemma reads_keep_documents_witness :
  reads (GetStartsWith "t" "user:") = true
  ∧ docs_of (fst (step users (GetStartsWith "t" "user:"))) "t"
    = docs_of (fst users) "t".
Proof.
  split; [reflexivity|].
  apply (reads_keep_documents users (GetStartsWith "t" "user:") "t").
  reflexivity.
Defined.

(** X7. Once [this.conn] is set, [prepare] of a table that is registered,
    or has a name the client accepts, cannot fail: whatever the store
    answers to the index request (closed connection, conflicting index),
    the failure is dropped, [prepare] returns normally and the table has a
    handle. *)
Theorem prepare_ignores_index_failure st c T :
  conn (snd st) = Some c →
  admitted st T = true →
  result (prepare T) st = Ok tt
  ∧ is_Some (models (snd (after (prepare T) st)) !! T).
Proof.
  intros Hc Hadm. destruct st as [w d]. cbn [snd] in Hc.
  unfold admitted in Hadm. cbn [fst snd] in Hadm. unfold result, after.
  destruct (models d !! T) as [m|] eqn:Hm.
  - rewrite (prepare_known w d T c m Hc Hm). cbn [fst snd]. by rewrite Hm.
  - assert (refused c T w = false) as Hr
      by (unfold refused; by rewrite Hadm, andb_false_r).
    rewrite (prepare_fresh w d T c Hc Hm Hr). cbn [fst snd].
    unfold set_models. cbn [models]. by rewrite lookup_insert_eq.
Qed.

Lemma prepare_ignores_index_failure_witness :
  conn (snd offline) = Some 0%nat
  ∧ admitted offline "cache" = true
  ∧ result (prepare "cache") offline = Ok tt
  ∧ is_Some (models (snd (after (prepare "cache") offline)) !! "cache").
Proof.
  split; [reflexivity|]. split; [reflexivity|].
  apply (prepare_ignores_index_failure offline 0%nat "cache"); reflexivity.
Defined.

(** X11. The errors of a data operation, in every state.  It fails with
    [NotConnectedError] exactly when [this.conn] is unset.  It fails with
    the client's invalid-argument error only on an unregistered table
    whose name the client does not accept, and it does fail so when the
    connection is open.  Any other failure is the store rejecting its
    command.  The non-null assertions on the handle never fail. *)
Theorem errors_of_data_operations st op :
  (conn (snd st) = None → error_of st op = Some NotConnectedError)
  ∧ (∀ c, conn (snd st) = Some c → is_open (fst st) c = true →
          admitted st (op_table op) = false →
          error_of st op = Some MongoInvalidArgumentError)
  ∧ (∀ e, error_of st op = Some e →
          (e = NotConnectedError ∧ conn (snd st) = None)
          ∨ (e = MongoInvalidArgumentError ∧ conn (snd st) ≠ None
             ∧ admitted st (op_table op) = false)
          ∨ (e = BackendQueryError ∧ conn (snd st) ≠ None)).
Proof.
  destruct st as [w d]. unfold admitted. cbn [fst snd].
  destruct (step_view w d op)
    as [(Hc & _ & He)|[(c & m & Hc & Hm & _ & He)
       |[(c & Hc & Hm & Hr & _ & He)|(c & Hc & Hm & Hr & _ & He)]]];
    rewrite He, Hc; (split; [done|]); try rewrite Hm.
  - split; [done|]. intros e [= <-]. by left.
  - split; [done|]. intros e ->%command_error_backend. by right; right.
  - split.
    + intros c' [= <-] Ho Ha. revert Hr. unfold refused. by rewrite Ho, Ha.
    + intros e ->%command_error_backend. by right; right.
  - split; [done|]. intros e [= <-]. right; left.
    revert Hr. unfold refused. intros [_ Ha%negb_true_iff]%andb_true_iff.
    done.
Qed.

(** X4. Keys are separate: in the Connected state, writing or deleting
    one key leaves what [getRowByKey] returns for every other key of the
    table as it was. *)
Theorem other_keys_untouched st T K K' V flag :
  connected st = true →
  K' ≠ K →
  result (getRowByKey T K') (after (setRowByKey T K V flag) st)
  = result (getRowByKey T K') st
  ∧ result (getRowByKey T K') (after (deleteRowByKey T K) st)
    = result (getRowByKey T K') st.
Proof.
  intros Hst Hne. destruct (admitted st T) eqn:Hadm.
  - destruct (getRowByKey_connected st T Hst Hadm K') as (s0 & Hget & _).
    destruct (setRowByKey_connected st T Hst Hadm K V flag)
      as (s1 & Hset & Hs1 & Ht1).
    destruct (deleteRowByKey_connected st T Hst Hadm K)
      as (s2 & Hdel & Hs2 & Ht2).
    destruct (getRowByKey_connected s1 T (proj1 Hs1)
                (settled_admitted _ _ _ Hs1) K') as (s3 & Hget1 & _).
    destruct (getRowByKey_connected s2 T (proj1 Hs2)
                (settled_admitted _ _ _ Hs2) K') as (s4 & Hget2 & _).
    unfold result, after. rewrite Hset, Hdel. cbn [fst snd].
    rewrite Hget, Hget1, Hget2. cbn [fst]. rewrite Ht1, Ht2.
    by rewrite withID_upsert_other, withID_deleted_other.
  - destruct (connected_not_admitted st T Hst Hadm) as (c & Hc & Hm & Hr).
    destruct st as [w d].
    destruct (step_refused w d (SetRowByKey T K V flag) c Hc Hm Hr)
      as [Hset _].
    destruct (step_refused w d (DeleteRowByKey T K) c Hc Hm Hr) as [Hdel _].
    unfold step in Hset, Hdel. by rewrite Hset, Hdel.
Qed.

Lemma other_keys_untouched_witness :
  connected null_row = true
  ∧ "a" ≠ "b"
  ∧ result (getRowByKey "cache" "a")
      (after (setRowByKey "cache" "b" (VNum 1) false) null_row)
    = result (getRowByKey "cache" "a") null_row
  ∧ result (getRowByKey "cache" "a")
      (after (deleteRowByKey "cache" "b") null_row)
    = result (getRowByKey "cache" "a") null_row.
Proof.
  split; [vm_compute; reflexivity|].
  assert ("a" ≠ "b") as Hne by congruence. split; [exact Hne|].
  apply (other_keys_untouched null_row "cache" "b" "a" (VNum 1) false);
    [vm_compute; reflexivity|exact Hne].
Defined.

(** X13. In the Connected state, for a table name the client accepts, on
    a table whose [ID]s are unique, after [setRowByKey(T, K, V, flag)] the
    rows of [getAllRows(T)] hold key [K] exactly once, with value [V]. *)
Theorem written_row_listed_once st T K V flag :
  connected st = true →
  accepted st T = true →
  uniqueIDs (table st T) →
  ∃ rows,
    result (getAllRows T) (after (setRowByKey T K V flag) st) = Ok rows
    ∧ rowsWithId K rows = [mkRow K V].
Proof.
  intros Hst Hadm%admitted_accepted Hu.
  destruct (setRowByKey_connected st T Hst Hadm K V flag)
    as (s1 & Hset & Hs1 & Ht1).
  destruct (getAllRows_connected s1 T (proj1 Hs1) (settled_admitted _ _ _ Hs1))
    as (s2 & Hget & _).
  eexists. unfold result, after. rewrite Hset. cbn [fst snd].
  rewrite Hget. cbn [fst]. split; [done|].
  rewrite <- toRow_withID, Ht1.
  by destruct (withID_upsert K V (clock (fst st)) _ Hu) as (doc & -> & <- & <-).
Qed.

Lemma written_row_listed_once_witness :
  connected null_row = true
  ∧ accepted null_row "cache" = true
  ∧ uniqueIDs (table null_row "cache")
  ∧ ∃ rows,
      result (getAllRows "cache")
        (after (setRowByKey "cache" "a" (VNum 5) true) null_row) = Ok rows
      ∧ rowsWithId "a" rows = [mkRow "a" (VNum 5)].
Proof.
  assert (uniqueIDs (table null_row "cache")) as Hu
    by (vm_compute; apply NoDup_singleton).
  split; [vm_compute; reflexivity|]. split; [vm_compute; reflexivity|].
  split; [exact Hu|].
  apply (written_row_listed_once null_row "cache" "a" (VNum 5) true);
    [vm_compute; reflexivity|vm_compute; reflexivity|exact Hu].
Defined.

(** X14. The last write wins: in the Connected state, writing [V1] and then
    [V2] to one key leaves [getAllRows] with the very rows, in the very
    order, that writing [V2] alone leaves; so writing a value twice is the
    same as writing it once. *)
Theorem last_write_wins st T K V1 V2 flag1 flag2 :
  connected st = true →
  result (getAllRows T)
    (after (setRowByKey T K V2 flag2) (after (setRowByKey T K V1 flag1) st))
  = result (getAllRows T) (after (setRowByKey T K V2 flag2) st).
Proof.
  intros Hst. destruct (admitted st T) eqn:Hadm.
  - destruct (setRowByKey_connected st T Hst Hadm K V1 flag1)
      as (s1 & Hset1 & Hs1 & Ht1).
    destruct (setRowByKey_connected s1 T (proj1 Hs1)
                (settled_admitted _ _ _ Hs1) K V2 flag2)
      as (s2 & Hset2 & Hs2 & Ht2).
    destruct (setRowByKey_connected st T Hst Hadm K V2 flag2)
      as (s3 & Hset3 & Hs3 & Ht3).
    destruct (getAllRows_connected s2 T (proj1 Hs2)
                (settled_admitted _ _ _ Hs2)) as (s4 & Hget2 & _).
    destruct (getAllRows_connected s3 T (proj1 Hs3)
                (settled_admitted _ _ _ Hs3)) as (s5 & Hget3 & _).
    unfold result, after. rewrite Hset1, Hset3. cbn [fst snd]. rewrite Hset2.
    cbn [fst snd]. rewrite Hget2, Hget3. cbn [fst].
    by rewrite Ht2, Ht1, Ht3, toRow_upsert_twice with (n3 := clock (fst st)).
  - destruct (connected_not_admitted st T Hst Hadm) as (c & Hc & Hm & Hr).
    destruct st as [w d].
    destruct (step_refused w d (SetRowByKey T K V1 flag1) c Hc Hm Hr)
      as [Hset1 _].
    destruct (step_refused w d (SetRowByKey T K V2 flag2) c Hc Hm Hr)
      as [Hset2 _].
    unfold step in Hset1, Hset2. by rewrite Hset1, Hset2.
Qed.

Lemma last_write_wins_witness :
  connected two_rows = true
  ∧ result (getAllRows "cache")
      (after (setRowByKey "cache" "a" (VNum 2) true)
         (after (setRowByKey "cache" "a" (VNum 1) false) two_rows))
    = result (getAllRows "cache")
        (after (setRowByKey "cache" "a" (VNum 2) true) two_rows).
Proof.
  split; [vm_compute; reflexivity|].
  apply (last_write_wins two_rows). vm_compute; reflexivity.
Defined.

(** X15. Deleting again finds nothing: in the Connected state, for a
    table name the client accepts, a second [deleteRowByKey(T, K)], a
    second [deleteAllRows(T)], and a [deleteRowByKey(T, K)] after
    [deleteAllRows(T)] all return 0. *)
Theorem second_delete_counts_zero st T K :
  connected st = true →
  accepted st T = true →
  result (deleteRowByKey T K) (after (deleteRowByKey T K) st) = Ok 0%nat
  ∧ result (deleteAllRows T) (after (deleteAllRows T) st) = Ok 0%nat
  ∧ result (deleteRowByKey T K) (after (deleteAllRows T) st) = Ok 0%nat.
Proof.
  intros Hst Hadm%admitted_accepted.
  destruct (deleteRowByKey_connected st T Hst Hadm K)
    as (s1 & Hd1 & Hs1 & Ht1).
  destruct (deleteAllRows_connected st T Hst Hadm) as (s2 & Hd2 & Hs2 & Ht2).
  destruct (deleteRowByKey_connected s1 T (proj1 Hs1)
              (settled_admitted _ _ _ Hs1) K) as (s3 & Hd3 & _).
  destruct (deleteAllRows_connected s2 T (proj1 Hs2)
              (settled_admitted _ _ _ Hs2)) as (s4 & Hd4 & _).
  destruct (deleteRowByKey_connected s2 T (proj1 Hs2)
              (settled_admitted _ _ _ Hs2) K) as (s5 & Hd5 & _).
  unfold result, after. rewrite Hd1, Hd2. cbn [fst snd].
  rewrite Hd3, Hd4, Hd5. cbn [fst]. rewrite Ht1, Ht2, withID_deleted.
  done.
Qed.

Lemma second_delete_counts_zero_witness :
  connected two_rows = true
  ∧ accepted two_rows "cache" = true
  ∧ result (deleteRowByKey "cache" "a")
      (after (deleteRowByKey "cache" "a") two_rows) = Ok 0%nat
  ∧ result (deleteAllRows "cache") (after (deleteAllRows "cache") two_rows)
    = Ok 0%nat
  ∧ result (deleteRowByKey "cache" "a") (after (deleteAllRows "cache") two_rows)
    = Ok 0%nat.
Proof.
  split; [vm_compute; reflexivity|]. split; [vm_compute; reflexivity|].
  apply (second_delete_counts_zero two_rows); vm_compute; reflexivity.
Defined.

(** X16. In the Connected state, for a table name the client accepts,
    [deleteRowByKey(T, K)] returns the number of rows of [getAllRows(T)]
    with id [K], and afterwards [getAllRows(T)] returns the other rows,
    all of them, in their order. *)
Theorem deleteRowByKey_removes_that_key_only st T K :
  connected st = true →
  accepted st T = true →
  ∃ rows,
    result (getAllRows T) st = Ok rows
    ∧ result (deleteRowByKey T K) st = Ok (length (rowsWithId K rows))
    ∧ result (getAllRows T) (after (deleteRowByKey T K) st)
      = Ok (rowsWithoutId K rows).
Proof.
  intros Hst Hadm%admitted_accepted.
  destruct (getAllRows_connected st T Hst Hadm) as (s0 & Hget & _).
  destruct (deleteRowByKey_connected st T Hst Hadm K)
    as (s1 & Hdel & Hs1 & Ht1).
  destruct (getAllRows_connected s1 T (proj1 Hs1) (settled_admitted _ _ _ Hs1))
    as (s2 & Hget1 & _).
  eexists. unfold result, after. rewrite Hget, Hdel. cbn [fst snd].
  rewrite Hget1. cbn [fst]. split; [done|].
  by rewrite <- toRow_withID, length_map, Ht1, toRow_deleted.
Qed.

Lemma deleteRowByKey_removes_that_key_only_witness :
  connected users = true
  ∧ accepted users "t" = true
  ∧ ∃ rows,
      result (getAllRows "t") users = Ok rows
      ∧ result (deleteRowByKey "t" "user:2") users
        = Ok (length (rowsWithId "user:2" rows))
      ∧ result (getAllRows "t") (after (deleteRowByKey "t" "user:2") users)
        = Ok (rowsWithoutId "user:2" rows).
Proof.
  split; [vm_compute; reflexivity|]. split; [vm_compute; reflexivity|].
  apply (deleteRowByKey_removes_that_key_only users); vm_compute; reflexivity.
Defined.

(** X17. In the Connected state, for a table name the client accepts,
    [getStartsWith(T, q)] returns those rows of [getAllRows(T)] whose id
    is equal to the string [/^q/], in their order, and no other row. *)
Theorem getStartsWith_selects_by_equality st T P :
  connected st = true →
  accepted st T = true →
  ∃ rows,
    result (getAllRows T) st = Ok rows
    ∧ result (getStartsWith T P) st
      = Ok (rowsWithId (startsWithPattern P) rows).
Proof.
  intros Hst Hadm%admitted_accepted.
  destruct (getAllRows_connected st T Hst Hadm) as (s0 & Hget & _).
  destruct (getStartsWith_connected st T Hst Hadm P) as (s1 & Hsw & _).
  eexists. unfold result. rewrite Hget, Hsw. cbn [fst]. split; [done|].
  by rewrite toRow_withID.
Qed.

Lemma getStartsWith_selects_by_equality_witness :
  connected users = true
  ∧ accepted users "t" = true
  ∧ ∃ rows,
      result (getAllRows "t") users = Ok rows
      ∧ result (getStartsWith "t" "user:") users
        = Ok (rowsWithId (startsWithPattern "user:") rows).
Proof.
  split; [vm_compute; reflexivity|]. split; [vm_compute; reflexivity|].
  apply (getStartsWith_selects_by_equality users); vm_compute; reflexivity.
Defined.

(** X12. In the Connected state nothing fails in the driver for table
    names the client accepts: every operation of any sequence of data
    operations on such tables returns normally, and the driver is still
    Connected at the end. *)
Theorem connected_session_succeeds st ops :
  connected st = true →
  Forall (λ op, accepted st (op_table op) = true) ops →
  all_succeed st ops = true ∧ connected (foldl step st ops) = true.
Proof.
  revert st. induction ops as [|op ops IH]; intros st Hst Hall; [done|].
  apply Forall_cons in Hall as [Hop Hall].
  simpl. rewrite (error_connected st op Hst (admitted_accepted _ _ Hop)).
  apply IH; [by apply step_connected|].
  eapply Forall_impl; [exact Hall|]. intros op' Hop'. unfold accepted.
  destruct (step_names st op (op_table op')) as [-> ->]. exact Hop'.
Qed.

Lemma connected_session_succeeds_witness :
  connected online = true
  ∧ Forall (λ op, accepted online (op_table op) = true)
      [GetRowByKey "cache" "k"; DeleteAllRows "cache";
       SetRowByKey "cache" "k" VNull true; GetStartsWith "users" "k";
       DeleteRowByKey "users" "k"; Prepare "cache"; GetAllRows "users"]
  ∧ all_succeed online
      [GetRowByKey "cache" "k"; DeleteAllRows "cache";
       SetRowByKey "cache" "k" VNull true; GetStartsWith "users" "k";
       DeleteRowByKey "users" "k"; Prepare "cache"; GetAllRows "users"]
    = true
  ∧ connected
      (foldl step online
         [GetRowByKey "cache" "k"; DeleteAllRows "cache";
          SetRowByKey "cache" "k" VNull true; GetStartsWith "users" "k";
          DeleteRowByKey "users" "k"; Prepare "cache"; GetAllRows "users"])
    = true.
Proof.
  assert (Forall (λ op, accepted online (op_table op) = true)
            [GetRowByKey "cache" "k"; DeleteAllRows "cache";
             SetRowByKey "cache" "k" VNull true; GetStartsWith "users" "k";
             DeleteRowByKey "users" "k"; Prepare "cache"; GetAllRows "users"])
    as Hall by (repeat constructor).
  split; [vm_compute; reflexivity|]. split; [exact Hall|].
  apply (connected_session_succeeds online);
    [vm_compute; reflexivity|exact Hall].
Defined.

(** X5. Rows written through the driver do not expire: [setRowByKey] sets
    [data] only, so in the Connected state, for a table name the client
    accepts, on a table where no document carries an [expireAt], none
    carries one after the write; the store's expiry sweep, at whatever
    time it runs, removes nothing from the table, and [getRowByKey] still
    returns the value written. *)
Theorem written_rows_never_expire st T K V flag t :
  connected st = true →
  accepted st T = true →
  (∀ doc, doc ∈ table st T → expireAt doc = None) →
  let st1 := after (setRowByKey T K V flag) st in
  let st2 := (expiry_sweep (at_time t (fst st1)), snd st1) in
  (∀ doc, doc ∈ table st1 T → expireAt doc = None)
  ∧ table st2 T = table st1 T
  ∧ result (getRowByKey T K) st2 = Ok (V, true).
Proof.
  intros Hst Hadm%admitted_accepted Hnone st1 st2. subst st2 st1.
  destruct (setRowByKey_connected st T Hst Hadm K V flag)
    as (s1 & Hset & Hs1 & Ht1).
  unfold after. rewrite Hset. cbn [fst snd]. destruct s1 as [w1 d1].
  cbn [fst snd].
  assert (∀ doc, doc ∈ table (w1, d1) T → expireAt doc = None) as Hnone1.
  { rewrite Ht1. by apply expireAt_upsert. }
  assert (table (expiry_sweep (at_time t w1), d1) T = table (w1, d1) T) as Hkept.
  { unfold table. cbn [fst].
    rewrite (collectionOf_env w1 d1 (expiry_sweep (at_time t w1)) d1 T)
      by done.
    rewrite docs_of_sweep.
    destruct (ttl_index (at_time t w1) !! collectionOf (w1, d1) T); [|done].
    by apply unexpiring_kept. }
  split; [done|]. split; [done|].
  assert (connected (expiry_sweep (at_time t w1), d1) = true) as Hst2.
  { by apply (connected_same_conns w1), Hs1. }
  assert (admitted (expiry_sweep (at_time t w1), d1) T = true) as Hadm2.
  { pose proof (settled_admitted _ _ _ Hs1) as Ha. revert Ha.
    unfold admitted. cbn [snd]. by destruct (models d1 !! T). }
  destruct (getRowByKey_connected _ T Hst2 Hadm2 K) as (s2 & Hget & _).
  unfold result. rewrite Hget. cbn [fst]. rewrite Hkept, Ht1, <- find_withID.
  by destruct (find_upsert K V (clock (fst st)) (table st T))
    as (doc & -> & _ & ->).
Qed.

Lemma written_rows_never_expire_witness :
  connected null_row = true
  ∧ accepted null_row "cache" = true
  ∧ (∀ doc, doc ∈ table null_row "cache" → expireAt doc = None)
  ∧ result (getRowByKey "cache" "k")
      (expiry_sweep
         (at_time 99999
            (fst (after (setRowByKey "cache" "k" (VNum 7) false) null_row))),
       snd (after (setRowByKey "cache" "k" (VNum 7) false) null_row))
    = Ok (VNum 7, true).
Proof.
  assert (∀ doc, doc ∈ table null_row "cache" → expireAt doc = None) as Hnone.
  { intros doc Hdoc. apply list_elem_of_singleton in Hdoc as ->. reflexivity. }
  split; [vm_compute; reflexivity|]. split; [vm_compute; reflexivity|].
  split; [exact Hnone|].
  apply (written_rows_never_expire null_row "cache" "k" (VNum 7) false 99999);
    [vm_compute; reflexivity|vm_compute; reflexivity|exact Hnone].
Defined.

(** X8. A [connect()] that fails changes nothing in the driver:
    [this.conn] is assigned only after the connection was made, so the
    driver's fields, the open connections and the documents are as
    before, and the failure is the connection error. *)
Theorem failed_connect_changes_nothing st :
  succeeds connect st = false →
  failure (result connect st) = Some ConnectionError
  ∧ snd (after connect st) = snd st
  ∧ open_conns (fst (after connect st)) = open_conns (fst st)
  ∧ ∀ coll, docs_of (fst (after connect st)) coll = docs_of (fst st) coll.
Proof.
  destruct st as [w d]. unfold succeeds, result, after. rewrite connect_run.
  pose proof (connect_keeps_docs (url d) w) as Hdocs. revert Hdocs.
  unfold createConnection. cbn zeta.
  destruct (reachable _); [done|]. by intros Hdocs _.
Qed.

Lemma failed_connect_changes_nothing_witness :
  succeeds connect (new "mongodb://nowhere/quickdb" false unreachable_world)
  = false
  ∧ failure (result connect
               (new "mongodb://nowhere/quickdb" false unreachable_world))
    = Some ConnectionError
  ∧ conn (snd (after connect
                 (new "mongodb://nowhere/quickdb" false unreachable_world)))
    = None.
Proof.
  split; [reflexivity|].
  destruct (failed_connect_changes_nothing
              (new "mongodb://nowhere/quickdb" false unreachable_world)
              eq_refl) as (He & Hd & _).
  split; [exact He|]. rewrite Hd. reflexivity.
Defined.

(** X10. A [connect()] that succeeds sets [this.conn] to a connection that
    is open, and nothing else: the registry is as before, the documents
    are as before, and every connection that was open, the one the driver
    held before included, is still open. *)
Theorem connect_closes_nothing st :
  succeeds connect st = true →
  ∃ c, conn (snd (after connect st)) = Some c
       ∧ is_open (fst (after connect st)) c = true
       ∧ models (snd (after connect st)) = models (snd st)
       ∧ (∀ c', is_open (fst st) c' = true →
                is_open (fst (after connect st)) c' = true)
       ∧ ∀ coll, docs_of (fst (after connect st)) coll = docs_of (fst st) coll.
Proof.
  destruct st as [w d]. unfold succeeds, result, after. rewrite connect_run.
  pose proof (connect_keeps_docs (url d) w) as Hdocs.
  destruct (createConnection (url d) w) as [[c|e] w'] eqn:Hcc; [|done].
  intros _. exists c. cbn [fst snd] in *. split; [done|].
  split; [by apply (createConnection_open (url d) w)|]. split; [done|].
  split; [|done]. intros c' Hc'. revert Hcc. unfold createConnection.
  cbn zeta. destruct (reachable _); [|done]. intros [= _ <-].
  unfold is_open in *. cbn. apply bool_decide_eq_true.
  apply bool_decide_eq_true in Hc'. set_solver.
Qed.

Lemma connect_closes_nothing_witness :
  succeeds connect online = true
  ∧ ∃ c, conn (snd (after connect online)) = Some c
         ∧ is_open (fst (after connect online)) c = true
         ∧ models (snd (after connect online)) = models (snd online)
         ∧ (∀ c', is_open (fst online) c' = true →
                  is_open (fst (after connect online)) c' = true)
         ∧ ∀ coll, docs_of (fst (after connect online)) coll
                   = docs_of (fst online) coll.
Proof.
  split; [reflexivity|].
  apply (connect_closes_nothing online). reflexivity.
Defined.

(** X9. [disconnect()] never fails and never touches the driver's fields
    or the documents.  It closes the connection [this.conn] refers to, if
    any, and no other; on a driver that never connected it does nothing
    at all. *)
Theorem disconnect_closes_own_connection_only st :
  result disconnect st = Ok tt
  ∧ snd (after disconnect st) = snd st
  ∧ (∀ coll, docs_of (fst (after disconnect st)) coll = docs_of (fst st) coll)
  ∧ (∀ c, conn (snd st) = Some c →
          is_open (fst (after disconnect st)) c = false)
  ∧ (∀ c, conn (snd st) ≠ Some c →
          is_open (fst (after disconnect st)) c = is_open (fst st) c)
  ∧ (conn (snd st) = None → after disconnect st = st).
Proof.
  destruct st as [w d]. unfold result, after, disconnect, bind, this.
  cbn [fst snd]. destruct (conn d) as [c0|]; [|done].
  unfold call_, close, is_open. cbn.
  split; [done|]. split; [done|]. split; [done|]. split; [|split; [|done]].
  - intros c [= <-]. apply bool_decide_eq_false.
    intros [_ Hn]%elem_of_difference. apply Hn. by apply elem_of_singleton.
  - intros c Hne. apply bool_decide_ext.
    rewrite elem_of_difference, elem_of_singleton.
    split; [tauto|]. intros Hin. split; [done|]. congruence.
Qed.

(** X18. The default constructor switches pluralization off: on a driver
    built with [pluralizeP = false] and connected, every table's
    collection is named like the table, and the handle [getModel] makes
    for a table whose name the client accepts carries the table's name,
    that collection and the driver's connection. *)
Theorem default_collection_is_table_name u w T :
  reachable w = true →
  accepts w T = true →
  let st := after connect (new u false w) in
  connected st = true
  ∧ collectionOf st T = T
  ∧ ∃ m, result (getModel T) st = Ok (Some m)
         ∧ modelName m = T ∧ collectionName m = T
         ∧ conn (snd st) = Some (db m).
Proof.
  intros Hr Hacc st.
  assert (connected st = true) as Hst.
  { apply connect_establishes; [done|]. done. }
  subst st. revert Hst. unfold after, new. rewrite connect_run.
  unfold createConnection. cbn zeta.
  replace (reachable (set_next_conn _ _)) with true by done.
  cbn [fst snd]. intros Hst. split; [done|]. split; [done|].
  eexists. unfold result.
  erewrite (getModel_fresh _ _ T (next_conn w)); [|done|done|]. 
  - cbn [fst]. done.
  - unfold refused, toCollectionName. cbn. by rewrite Hacc, andb_false_r.
Qed.

Lemma default_collection_is_table_name_witness :
  reachable empty_world = true
  ∧ accepts empty_world "Users" = true
  ∧ connected online = true
  ∧ collectionOf online "Users" = "Users"
  ∧ ∃ m, result (getModel "Users") online = Ok (Some m)
         ∧ modelName m = "Users" ∧ collectionName m = "Users"
         ∧ conn (snd online) = Some (db m).
Proof.
  split; [reflexivity|]. split; [reflexivity|].
  apply (default_collection_is_table_name "mongodb://localhost/quickdb"
           empty_world "Users"); reflexivity.
Defined.

(** X19. Unique [ID]s are an invariant of the driver: if no collection of
    the store holds two documents with one [ID], then none does after
    [connect()], after [disconnect()], or after any sequence of data
    operations, run from any state. *)
Theorem unique_ids_invariant st ops :
  unique_store (fst st) →
  unique_store (fst (after connect st))
  ∧ unique_store (fst (after disconnect st))
  ∧ unique_store (fst (foldl step st ops)).
Proof.
  intros Hu. split; [by apply connect_unique|].
  split; [by apply disconnect_unique|]. by apply session_unique.
Qed.

Lemma unique_ids_invariant_witness :
  unique_store (fst online)
  ∧ unique_store
      (fst (foldl step online
              [SetRowByKey "cache" "k" (VNum 1) false;
               SetRowByKey "cache" "k" (VNum 2) true;
               DeleteRowByKey "cache" "j"])).
Proof.
  assert (unique_store (fst online)) as Hu
    by (intros coll; vm_compute; constructor).
  split; [exact Hu|].
  apply (unique_ids_invariant online
           [SetRowByKey "cache" "k" (VNum 1) false;
            SetRowByKey "cache" "k" (VNum 2) true;
            DeleteRowByKey "cache" "j"] Hu).
Defined.

End Coverage.
